(** * Chatbot moderation: rule checks, classifier gate and history repair

    A shallow embedding of [moderation/moderator.py], [config.py],
    [services/memory_manager.py] and [chatbot/chatbot.py].

    Text is a [string].  The character operations of Python's [str]
    ([lower], [upper], [strip], [isspace]) and the classes [\d], [\s], [\w]
    and the assertion [\b] of [re] are modelled on the ASCII range, where
    they agree with Python character by character; characters above 127
    are left alone by every operation here.  The two markers that
    [get_response] puts in front of its refusals are kept as the bytes of
    their UTF-8 encoding.

    The two language-model calls (the moderation chain and the chat chain
    wrapped in [RunnableWithMessageHistory]) are parameters of the program:
    each may return or raise, depending on everything that happened before.
    Logging is not modelled. *)

From Stdlib Require Import Ascii NArith Bool.
From stdpp Require Import gmap strings list fin_maps.

Local Open Scope N_scope.

(** ** Python's [str] operations *)

Module PyStr.

Definition code (c : ascii) : N := N_of_ascii c.

Definition in_range (lo hi : N) (c : ascii) : bool :=
  (lo <=? code c) && (code c <=? hi).

Definition is_upper (c : ascii) : bool := in_range 65 90 c.
Definition is_lower (c : ascii) : bool := in_range 97 122 c.
Definition is_digit (c : ascii) : bool := in_range 48 57 c.
Definition is_alpha (c : ascii) : bool := is_upper c || is_lower c.

(** [str.isspace] on the ASCII range: TAB, LF, VT, FF, CR, the four
    separators FS, GS, RS, US, and the space. *)
Definition is_space (c : ascii) : bool :=
  in_range 9 13 c || in_range 28 32 c.

Definition lower_char (c : ascii) : ascii :=
  if is_upper c then ascii_of_N (code c + 32) else c.

Definition upper_char (c : ascii) : ascii :=
  if is_lower c then ascii_of_N (code c - 32) else c.

Fixpoint map_chars (f : ascii -> ascii) (s : string) : string :=
  match s with
  | EmptyString => EmptyString
  | String c s' => String (f c) (map_chars f s')
  end.

(** [s.lower()] and [s.upper()]. *)
Definition lower (s : string) : string := map_chars lower_char s.
Definition upper (s : string) : string := map_chars upper_char s.

Fixpoint all_chars (p : ascii -> bool) (s : string) : bool :=
  match s with
  | EmptyString => true
  | String c s' => p c && all_chars p s'
  end.

(** [s.lstrip()], [s.rstrip()] and [s.strip()] with no argument. *)
Fixpoint lstrip (s : string) : string :=
  match s with
  | EmptyString => EmptyString
  | String c s' => if is_space c then lstrip s' else s
  end.

Fixpoint rstrip (s : string) : string :=
  match s with
  | EmptyString => EmptyString
  | String c s' =>
      match rstrip s' with
      | EmptyString => if is_space c then EmptyString else String c EmptyString
      | r => String c r
      end
  end.

Definition strip (s : string) : string := rstrip (lstrip s).

(** [s.startswith(p)]. *)
Fixpoint startswith (p s : string) : bool :=
  match p, s with
  | EmptyString, _ => true
  | String _ _, EmptyString => false
  | String a p', String b s' => if decide (a = b) then startswith p' s' else false
  end.

(** [sub in s]. *)
Fixpoint contains (sub s : string) : bool :=
  startswith sub s ||
  match s with
  | EmptyString => false
  | String _ s' => contains sub s'
  end.

(** [s.replace(old, new)]: every occurrence of [old], found from left to
    right without overlap, becomes [new].  [skip] counts the characters of
    an occurrence already replaced that are still to be passed over. *)
Fixpoint replace_from (old new : string) (skip : nat) (s : string) : string :=
  match s with
  | EmptyString => EmptyString
  | String c s' =>
      match skip with
      | S k => replace_from old new k s'
      | O =>
          if startswith old s
          then new +:+ replace_from old new (Nat.pred (String.length old)) s'
          else String c (replace_from old new O s')
      end
  end.

(** With an empty [old], Python puts [new] before every character and at
    the end. *)
Fixpoint intersperse (new s : string) : string :=
  match s with
  | EmptyString => new
  | String c s' => new +:+ String c (intersperse new s')
  end.

Definition replace (old new s : string) : string :=
  match old with
  | EmptyString => intersperse new s
  | String _ _ => replace_from old new O s
  end.


End PyStr.

(** ** The fragment of [re] that the configured patterns use *)

Module Re.

(** A pattern is a sequence of items: the assertion [\b], or a character
    class repeated between [lo] and [hi] times ([hi = None]: no bound). *)
Inductive item : Type :=
| Boundary
| Rep (cls : ascii -> bool) (lo : nat) (hi : option nat).

Definition pattern : Type := list item.

(** [\w], [\d] and [\s] for a [str] pattern, on the ASCII range. *)
Definition word_char (c : ascii) : bool :=
  PyStr.is_alpha c || PyStr.is_digit c || PyStr.in_range 95 95 c.
Definition digit (c : ascii) : bool := PyStr.is_digit c.
Definition space (c : ascii) : bool := PyStr.is_space c.

Definition is_word (o : option ascii) : bool :=
  match o with
  | Some c => word_char c
  | None => false
  end.

Definition next_char (s : string) : option ascii :=
  match s with
  | EmptyString => None
  | String c _ => Some c
  end.

(** [\b] holds between a word character and a non-word character, the two
    ends of the text counting as non-word. *)
Definition at_boundary (prev : option ascii) (s : string) : bool :=
  xorb (is_word prev) (is_word (next_char s)).

Definition exhausted (hi : option nat) : bool :=
  match hi with
  | Some O => true
  | _ => false
  end.

(** [match_here p prev s]: [p] matches some prefix of [s], the character
    before [s] being [prev].  Every admissible number of repetitions is
    tried, so the result is that of a backtracking matcher. *)
Fixpoint match_here (p : pattern) (prev : option ascii) (s : string) : bool :=
  match p with
  | [] => true
  | Boundary :: rest => at_boundary prev s && match_here rest prev s
  | Rep cls lo hi :: rest =>
      (fix rep (lo : nat) (hi : option nat) (prev : option ascii) (s : string)
         {struct s} : bool :=
         (match lo with O => match_here rest prev s | S _ => false end)
         || (negb (exhausted hi) &&
             match s with
             | EmptyString => false
             | String c s' =>
                 cls c && rep (Nat.pred lo) (Nat.pred <$> hi) (Some c) s'
             end)) lo hi prev s
  end.

Fixpoint search_from (p : pattern) (prev : option ascii) (s : string) : bool :=
  match_here p prev s ||
  match s with
  | EmptyString => false
  | String c s' => search_from p (Some c) s'
  end.

(** [re.search(p, s)] as a truth value. *)
Definition search (p : pattern) (s : string) : bool := search_from p None s.

End Re.

(** ** [config.py]: the moderation patterns *)

Module Config.

Definition MODERATION_KEYWORDS_HATE_SPEECH : list string :=
  [ "hate"; "kill"; "harm"; "attack"; "racist"; "sexist"; "violent";
    "nazi"; "terrorist"; "bomb"; "explode"; "genocide"; "destroy"; "murder";
    "weapon" ].

Definition is_char (a : ascii) (c : ascii) : bool := bool_decide (c = a).

(** The class [[-.\s]]. *)
Definition phone_separator (c : ascii) : bool :=
  is_char "-" c || is_char "." c || Re.space c.

(** The class [[a-zA-Z0-9._%+-]]. *)
Definition email_local (c : ascii) : bool :=
  PyStr.is_alpha c || PyStr.is_digit c || is_char "." c || is_char "_" c
  || is_char "%" c || is_char "+" c || is_char "-" c.

(** The class [[a-zA-Z0-9.-]]. *)
Definition email_domain (c : ascii) : bool :=
  PyStr.is_alpha c || PyStr.is_digit c || is_char "." c || is_char "-" c.

(** [\b\d{3}[-.\s]?\d{3}[-.\s]?\d{4}\b] *)
Definition PHONE_REGEX : Re.pattern :=
  [ Re.Boundary;
    Re.Rep Re.digit 3 (Some 3); Re.Rep phone_separator 0 (Some 1);
    Re.Rep Re.digit 3 (Some 3); Re.Rep phone_separator 0 (Some 1);
    Re.Rep Re.digit 4 (Some 4);
    Re.Boundary ]%nat.

(** [[a-zA-Z0-9._%+-]+@[a-zA-Z0-9.-]+\.[a-zA-Z]{2,}] *)
Definition EMAIL_REGEX : Re.pattern :=
  [ Re.Rep email_local 1 None;
    Re.Rep (is_char "@") 1 (Some 1);
    Re.Rep email_domain 1 None;
    Re.Rep (is_char ".") 1 (Some 1);
    Re.Rep PyStr.is_alpha 2 None ]%nat.

Definition MODERATION_KEYWORDS_PII : list Re.pattern :=
  [ PHONE_REGEX; EMAIL_REGEX ].

Definition MODERATION_JAILBREAK_PHRASES : list string :=
  [ "ignore previous instructions"; "act as if"; "override your programming";
    "pretend you are"; "hypothetically"; "new roleplay"; "forbidden knowledge";
    "as a large language model"; "developer mode"; "do anything now";
    "disregard all prior instructions"; "you are no longer an AI";
    "simulate being human"; "forget everything you know";
    "act like a different AI";
    "jailbreak"; "unleash your full potential"; "execute the following code" ].

End Config.

(** ** The state the program runs in *)

(** The fields of a [ChatbotModerator] that the rule checks read. *)
Record ChatbotModerator : Type := {
  hate_speech_keywords : list string;
  pii_regexes : list Re.pattern;
  jailbreak_phrases : list string
}.

(** [ChatbotModerator.__init__] copies the three lists from [Config]. *)
Definition ChatbotModerator_init : ChatbotModerator :=
  {| hate_speech_keywords := Config.MODERATION_KEYWORDS_HATE_SPEECH;
     pii_regexes := Config.MODERATION_KEYWORDS_PII;
     jailbreak_phrases := Config.MODERATION_JAILBREAK_PHRASES |}.

(** A turn of a conversation, as [langchain_core.messages] has it. *)
Inductive message : Type :=
| HumanMessage (content : string)
| AIMessage (content : string).

Definition content_of (m : message) : string :=
  match m with
  | HumanMessage c => c
  | AIMessage c => c
  end.

Inductive category : Type := HateSpeech | PII | Jailbreak.

(** The calls the trace keeps: one of the three rule checks made by
    [moderate_input], the moderation chain, the chat chain. *)
Inductive event : Type :=
| RuleCheck (c : category) (text : string)
| ModerationInvoke (user_input : string)
| ChainInvoke (query session_id : string).

Record world : Type := World {
  moderator : ChatbotModerator;
  langchain_memory_store : gmap string (list message);
  trace : list event
}.

(** A Python call returns a value or raises. *)
Inductive outcome (A : Type) : Type :=
| Returned (a : A)
| Raised.
Arguments Returned {A} a.
Arguments Raised {A}.

(** What [chain_with_history.invoke] can do: return the reply, or raise
    after having left [partial] at the end of the session history. *)
Inductive chain_result : Type :=
| ChainReturned (reply : string)
| ChainRaised (partial : list message).

(** Computations: a state and exception monad over [world]. *)
Definition M (A : Type) : Type := world -> outcome A * world.

Global Instance M_ret : MRet M := fun A (a : A) w => (Returned a, w).

Global Instance M_bind : MBind M := fun A B (f : A -> M B) (m : M A) w =>
  match m w with
  | (Returned a, w') => f a w'
  | (Raised, w') => (Raised, w')
  end.

(** [try: body  except Exception: handler] *)
Definition try_except {A : Type} (body handler : M A) : M A := fun w =>
  match body w with
  | (Returned a, w') => (Returned a, w')
  | (Raised, w') => handler w'
  end.

(** [x = init; try: x = call(); body(x)  except Exception: handler(x)]:
    the handler reads the local [x], which holds [init] until the call has
    returned. *)
Definition try_assign {A B : Type} (init : A) (call : M A)
    (body handler : A -> M B) : M B := fun w =>
  match call w with
  | (Raised, w') => handler init w'
  | (Returned x, w') => try_except (body x) (handler x) w'
  end.

(** The world after the calls [evs] have been made. *)
Definition note (evs : list event) (w : world) : world :=
  {| moderator := moderator w;
     langchain_memory_store := langchain_memory_store w;
     trace := trace w ++ evs |}.

Definition record (e : event) : M unit := fun w => (Returned tt, note [e] w).

Definition set_store (s : gmap string (list message)) (w : world) : world :=
  {| moderator := moderator w; langchain_memory_store := s; trace := trace w |}.

(** The messages of a session; a session never referred to has none. *)
Definition history (w : world) (session_id : string) : list message :=
  default [] (langchain_memory_store w !! session_id).

Definition set_history (session_id : string) (h : list message) (w : world)
    : world :=
  set_store (<[session_id := h]> (langchain_memory_store w)) w.

(** ** [services/memory_manager.py] and the message history *)

(** [MemoryManager.get_session_history]: the history of an unseen session
    is created empty; the object returned is the one stored under
    [session_id], so it is referred to by that key. *)
Definition get_session_history (session_id : string) : M unit := fun w =>
  match langchain_memory_store w !! session_id with
  | Some _ => (Returned tt, w)
  | None => (Returned tt, set_history session_id [] w)
  end.

(** [session_history.messages] *)
Definition messages (session_id : string) : M (list message) := fun w =>
  (Returned (history w session_id), w).

Definition add_message (session_id : string) (m : message) : M unit := fun w =>
  (Returned tt, set_history session_id (history w session_id ++ [m]) w).

Definition add_user_message (session_id content : string) : M unit :=
  add_message session_id (HumanMessage content).

Definition add_ai_message (session_id content : string) : M unit :=
  add_message session_id (AIMessage content).

(** [session_history.messages.pop()]: an [IndexError] on an empty list. *)
Definition pop (session_id : string) : M message := fun w =>
  match last (history w session_id) with
  | Some m => (Returned m, set_history session_id (removelast (history w session_id)) w)
  | None => (Raised, w)
  end.

(** [messages and isinstance(messages[-1], AIMessage)] *)
Definition ends_with_ai (msgs : list message) : bool :=
  match last msgs with
  | Some (AIMessage _) => true
  | _ => false
  end.

(** ** [moderation/moderator.py] *)

(** [for k in needles: if k in text: return True] then [return False]. *)
Fixpoint any_keyword_in (needles : list string) (text : string) : bool :=
  match needles with
  | [] => false
  | k :: rest => if PyStr.contains k text then true else any_keyword_in rest text
  end.

(** [for p in patterns: if re.search(p, text): return True] then
    [return False]. *)
Fixpoint any_pattern_found (patterns : list Re.pattern) (text : string) : bool :=
  match patterns with
  | [] => false
  | p :: rest => if Re.search p text then true else any_pattern_found rest text
  end.

Definition _check_for_hate_speech (text : string) : M bool := fun w =>
  let text_lower := PyStr.lower text in
  (Returned (any_keyword_in (hate_speech_keywords (moderator w)) text_lower), w).

Definition _check_for_pii (text : string) : M bool := fun w =>
  (Returned (any_pattern_found (pii_regexes (moderator w)) text), w).

Definition _check_for_jailbreak_attempts (text : string) : M bool := fun w =>
  let text_lower := PyStr.lower text in
  (Returned (any_keyword_in (jailbreak_phrases (moderator w)) text_lower), w).

(** The result of [moderate_input]: the pair [(is_allowed, reason)]. *)
Definition Decision : Type := bool * string.
Definition allowed (d : Decision) : bool := fst d.
Definition reason (d : Decision) : string := snd d.

Definition HATE_SPEECH_REASON : string :=
  "Hate speech detected. Please refrain from using offensive language.".
Definition PII_REASON : string :=
  "Personal identifiable information detected. Please do not share sensitive data.".
Definition JAILBREAK_REASON : string :=
  "Jailbreak attempt detected. Please ask legitimate questions.".
Definition LLM_BLOCKED_PREFIX : string :=
  "Your request was blocked by the moderation system: ".
Definition UNEXPECTED_REASON : string :=
  "An unexpected moderation issue occurred. Please try again or rephrase your request.".
Definition MODERATION_ERROR_REASON : string :=
  "An error occurred during moderation. Please try again.".

Definition INPUT_BLOCKED_MARKER : string := "🚫 Your input was blocked: ".
Definition OUTPUT_BLOCKED_MARKER : string :=
  "⚠️ My response was blocked due to policy violation: ".
Definition DEFAULT_ERROR_MESSAGE : string :=
  "I'm sorry, I encountered an issue while processing your request. Please try again.".

Section Program.

(** The two language-model calls are outside the program: the text the
    moderation chain answers with (or its failure), and what the chat chain
    does, may depend on everything that happened before. *)
Variable llm_moderation : list event -> string -> outcome string.
Variable chat_chain : list event -> list message -> string -> chain_result.

(** [moderation_chain.invoke({"user_input": user_input})] *)
Definition moderation_chain_invoke (user_input : string) : M string := fun w =>
  (llm_moderation (trace w) user_input, note [ModerationInvoke user_input] w).

(** The branches on the normalised answer of the moderation chain. *)
Definition verdict (moderation_response : string) : Decision :=
  if PyStr.startswith "BLOCKED" moderation_response then
    let reason := PyStr.strip (PyStr.replace "BLOCKED:" "" moderation_response) in
    (false, LLM_BLOCKED_PREFIX +:+ reason +:+ ".")
  else if PyStr.contains "SAFE" moderation_response then (true, "")
  else (false, UNEXPECTED_REASON).

Definition moderate_input (user_input : string) : M Decision :=
  record (RuleCheck HateSpeech user_input);;
  hate ← _check_for_hate_speech user_input;
  if hate : bool then mret (false, HATE_SPEECH_REASON) else
  record (RuleCheck PII user_input);;
  pii ← _check_for_pii user_input;
  if pii : bool then mret (false, PII_REASON) else
  record (RuleCheck Jailbreak user_input);;
  jailbreak ← _check_for_jailbreak_attempts user_input;
  if jailbreak : bool then mret (false, JAILBREAK_REASON) else
  try_except
    (raw ← moderation_chain_invoke user_input;
     let moderation_response := PyStr.upper (PyStr.strip raw) in
     mret (verdict moderation_response))
    (mret (false, MODERATION_ERROR_REASON)).

(** ** [chatbot/chatbot.py] *)

(** [chain_with_history.invoke]: a call that returns has put the query and
    the reply at the end of the session history. *)
Definition chain_invoke (query session_id : string) : M string := fun w =>
  let h := history w session_id in
  let w' := note [ChainInvoke query session_id] w in
  match chat_chain (trace w) h query with
  | ChainReturned reply =>
      (Returned reply,
       set_history session_id (h ++ [HumanMessage query; AIMessage reply]) w')
  | ChainRaised partial =>
      (Raised, set_history session_id (h ++ partial) w')
  end.

(** The repair both the blocked-output branch and the handler perform: drop
    the last message when it is an [AIMessage], then add [text]. *)
Definition replace_last_ai (session_id text : string) : M unit :=
  msgs ← messages session_id;
  (if ends_with_ai msgs then pop session_id;; mret tt else mret tt);;
  add_ai_message session_id text.

(** The body of the [try] after the chain has returned. *)
Definition moderate_output (session_id llm_response : string) : M string :=
  '(is_allowed_output, output_moderation_reason) ← moderate_input llm_response;
  if negb is_allowed_output then
    let moderation_response_to_user :=
      OUTPUT_BLOCKED_MARKER +:+ output_moderation_reason in
    replace_last_ai session_id moderation_response_to_user;;
    mret moderation_response_to_user
  else mret llm_response.

(** The [except Exception] clause. *)
Definition on_chain_error (session_id llm_response : string) : M string :=
  replace_last_ai session_id llm_response;;
  mret llm_response.

Definition get_response (user_input session_id : string) : M string :=
  get_session_history session_id;;
  '(is_allowed_input, input_moderation_reason) ← moderate_input user_input;
  if negb is_allowed_input then
    let moderation_response_to_user :=
      INPUT_BLOCKED_MARKER +:+ input_moderation_reason in
    add_user_message session_id user_input;;
    add_ai_message session_id moderation_response_to_user;;
    mret moderation_response_to_user
  else
    try_assign DEFAULT_ERROR_MESSAGE
      (chain_invoke user_input session_id)
      (moderate_output session_id)
      (on_chain_error session_id).

End Program.

(** ** [services/llm_service.py] *)

Module LLMService.

(** The two temperatures of [config.py], kept as the names of the
    constants. *)
Inductive temperature : Type :=
| LLM_TEMPERATURE_CHATBOT
| LLM_TEMPERATURE_MODERATION.

(** [Config.LLM_MODEL_NAME] *)
Definition LLM_MODEL_NAME : string := "gpt-4o-mini".

(** A [ChatOpenAI] object: what it was built with, and [object_id], which
    tells two objects apart as Python's [is] does. *)
Record ChatOpenAI : Type := {
  object_id : nat;
  openai_api_key : string;
  model_name : string;
  temperature_of : temperature
}.

(** The class attributes of [LLMService], [Config.OPENAI_API_KEY] (the
    value of the environment variable, [None] when it is not set), and the
    number of [ChatOpenAI] objects built so far. *)
Record state : Type := {
  OPENAI_API_KEY : option string;
  _chat_llm_instance : option ChatOpenAI;
  _moderation_llm_instance : option ChatOpenAI;
  objects_built : nat
}.

(** The key when [not Config.OPENAI_API_KEY] is false: set and not empty. *)
Definition usable_key (k : option string) : option string :=
  match k with
  | None => None
  | Some EmptyString => None
  | Some key => Some key
  end.

Definition get_chat_llm (s : state) : option ChatOpenAI * state :=
  match _chat_llm_instance s with
  | Some llm => (Some llm, s)
  | None =>
      match usable_key (OPENAI_API_KEY s) with
      | None => (None, s)
      | Some key =>
          let llm := {| object_id := objects_built s;
                        openai_api_key := key;
                        model_name := LLM_MODEL_NAME;
                        temperature_of := LLM_TEMPERATURE_CHATBOT |} in
          (Some llm,
           {| OPENAI_API_KEY := OPENAI_API_KEY s;
              _chat_llm_instance := Some llm;
              _moderation_llm_instance := _moderation_llm_instance s;
              objects_built := S (objects_built s) |})
      end
  end.

Definition get_moderation_llm (s : state) : option ChatOpenAI * state :=
  match _moderation_llm_instance s with
  | Some llm => (Some llm, s)
  | None =>
      match usable_key (OPENAI_API_KEY s) with
      | None => (None, s)
      | Some key =>
          let llm := {| object_id := objects_built s;
                        openai_api_key := key;
                        model_name := LLM_MODEL_NAME;
                        temperature_of := LLM_TEMPERATURE_MODERATION |} in
          (Some llm,
           {| OPENAI_API_KEY := OPENAI_API_KEY s;
              _chat_llm_instance := _chat_llm_instance s;
              _moderation_llm_instance := Some llm;
              objects_built := S (objects_built s) |})
      end
  end.

(** The class as the module is imported: no instance yet. *)
Definition at_import (key : option string) : state :=
  {| OPENAI_API_KEY := key;
     _chat_llm_instance := None;
     _moderation_llm_instance := None;
     objects_built := O |}.

Inductive getter : Type := GetChat | GetModeration.

Definition call (g : getter) : state -> option ChatOpenAI * state :=
  match g with
  | GetChat => get_chat_llm
  | GetModeration => get_moderation_llm
  end.

(** A sequence of calls of the two class methods, with what each returned. *)
Fixpoint calls (gs : list getter) (s : state)
    : list (getter * option ChatOpenAI) * state :=
  match gs with
  | [] => ([], s)
  | g :: rest =>
      let '(r, s1) := call g s in
      let '(rs, s2) := calls rest s1 in
      ((g, r) :: rs, s2)
  end.

End LLMService.

(** ** [dashboard_app.py]: the log parser *)

(** A pattern without special characters (an escaped parenthesis counts as
    the parenthesis): each character once, in order. *)
Definition literal_pattern (s : string) : Re.pattern :=
  (fun c => Re.Rep (Config.is_char c) 1 (Some 1%nat)) <$> String.list_ascii_of_string s.

Module Dashboard.

(** The integer keys of the [log_data] dictionary. *)
Inductive counter : Type :=
| total_user_inputs
| user_input_accepted
| user_input_blocked_overall
| user_input_blocked_hate_speech
| user_input_blocked_pii
| user_input_blocked_jailbreak
| user_input_blocked_llm_general
| total_llm_generations
| llm_output_accepted
| llm_output_blocked.

Global Instance counter_eq_dec : EqDecision counter.
Proof. solve_decision. Defined.

(** [log_data]: the value under each integer key, and the list under
    ["all_log_lines"]. *)
Record log_data : Type := {
  count : counter -> nat;
  all_log_lines : list string
}.

Definition empty_log_data : log_data :=
  {| count := fun _ => O; all_log_lines := [] |}.

(** [log_data[k] += 1] *)
Definition bump (k : counter) (d : log_data) : log_data :=
  {| count := fun k' => if decide (k' = k) then S (count d k') else count d k';
     all_log_lines := all_log_lines d |}.

(** [log_data["all_log_lines"].append(text)] *)
Definition append_line (text : string) (d : log_data) : log_data :=
  {| count := count d; all_log_lines := all_log_lines d ++ [text] |}.

Definition found (literal line : string) : bool :=
  Re.search (literal_pattern literal) line.

Definition blocked_input (d : log_data) : log_data :=
  bump user_input_blocked_overall (bump total_user_inputs d).

(** The body of the loop over the lines of the file. *)
Definition process_line (line : string) (d : log_data) : log_data :=
  let d := append_line (PyStr.strip line) d in
  let d :=
    if found "INFO - User input accepted; sending to main LLM:" line then
      bump total_llm_generations
        (bump user_input_accepted (bump total_user_inputs d))
    else if found "WARNING - User input was blocked by moderation:" line then
      let d := blocked_input d in
      if PyStr.contains "Hate speech detected" line then
        bump user_input_blocked_hate_speech d
      else if PyStr.contains "Personal identifiable information detected" line
      then bump user_input_blocked_pii d
      else if PyStr.contains "Jailbreak attempt detected" line then
        bump user_input_blocked_jailbreak d
      else if found "User input blocked (LLM-based):" line then
        bump user_input_blocked_llm_general d
      else d
    else if found "WARNING - User input blocked (Rule-based):" line then
      let d := blocked_input d in
      if PyStr.contains "Hate speech detected" line then
        bump user_input_blocked_hate_speech d
      else if PyStr.contains "PII detected" line then
        bump user_input_blocked_pii d
      else if PyStr.contains "Jailbreak attempt detected" line then
        bump user_input_blocked_jailbreak d
      else d
    else if found "WARNING - User input blocked by LLM moderation:" line then
      bump user_input_blocked_llm_general (blocked_input d)
    else d in
  if found "INFO - Main LLM Response passed output moderation:" line then
    bump llm_output_accepted d
  else if found "WARNING - LLM output blocked by moderation:" line then
    bump llm_output_blocked d
  else d.

(** [for line in f: ...], from the dictionary [d]. *)
Fixpoint process_lines (lines : list string) (d : log_data) : log_data :=
  match lines with
  | [] => d
  | line :: rest => process_lines rest (process_line line d)
  end.

(** The log file as the parser meets it: absent, or yielding [lines], after
    which the file ends or ([failed]) reading raises. *)
Inductive log_file : Type :=
| Missing
| Readable (lines : list string) (failed : bool).

(** What the parser shows on the page besides returning. *)
Inductive notice : Type := NoNotice | FileNotFound | ParseError.

Definition parse_moderation_log (f : log_file) : log_data * notice :=
  match f with
  | Missing => (empty_log_data, FileNotFound)
  | Readable lines failed =>
      (process_lines lines empty_log_data,
       if failed then ParseError else NoNotice)
  end.

End Dashboard.

(** ** [app.py]: the conversation history on the page *)

Module App.

Inductive widget : Type :=
| Write (text : string)
| Info (text : string)
| Success (text : string)
| Error (text : string)
| Markdown (text : string).

Definition NO_HISTORY : string :=
  "Start chatting to see your conversation history here!".

(** The branch on the class of one message. *)
Definition show_message (m : message) : widget :=
  match m with
  | HumanMessage content => Info ("**You:** " +:+ content)
  | AIMessage content =>
      if PyStr.startswith "🚫" content || PyStr.startswith "⚠️" content
      then Error ("**AI:** " +:+ content)
      else Success ("**AI:** " +:+ content)
  end.

(** [for i, message in enumerate(ms)], with [i] the index of the first
    message of [ms] and [n] the length of the whole history. *)
Fixpoint show_from (i n : nat) (ms : list message) : list widget :=
  match ms with
  | [] => []
  | m :: rest =>
      show_message m
        :: (if (i <? n - 1)%nat then [Markdown "---"] else [])
        ++ show_from (S i) n rest
  end.

Definition show_history (current_memory_messages : list message)
    : list widget :=
  match current_memory_messages with
  | [] => [Write NO_HISTORY]
  | _ =>
      show_from O (length current_memory_messages)
        (rev current_memory_messages)
  end.

End App.

(** ** What the statements below are phrased with *)

(** The truth value each rule check computes from the moderator's lists. *)
Definition rule_matches (m : ChatbotModerator) (c : category) (text : string)
    : bool :=
  match c with
  | HateSpeech => any_keyword_in (hate_speech_keywords m) (PyStr.lower text)
  | PII => any_pattern_found (pii_regexes m) text
  | Jailbreak => any_keyword_in (jailbreak_phrases m) (PyStr.lower text)
  end.

(** The method of [ChatbotModerator] that checks a category. *)
Definition check (c : category) : string -> M bool :=
  match c with
  | HateSpeech => _check_for_hate_speech
  | PII => _check_for_pii
  | Jailbreak => _check_for_jailbreak_attempts
  end.

Definition canned_reason (c : category) : string :=
  match c with
  | HateSpeech => HATE_SPEECH_REASON
  | PII => PII_REASON
  | Jailbreak => JAILBREAK_REASON
  end.

(** The categories that come before [c] in hate-speech, PII, jailbreak. *)
Definition earlier (c : category) : list category :=
  match c with
  | HateSpeech => []
  | PII => [HateSpeech]
  | Jailbreak => [HateSpeech; PII]
  end.

Definition rule_events (text : string) : list event :=
  [RuleCheck HateSpeech text; RuleCheck PII text; RuleCheck Jailbreak text].

Definition is_moderation_invoke (e : event) : bool :=
  match e with
  | ModerationInvoke _ => true
  | _ => false
  end.

Definition is_chain_invoke (e : event) : bool :=
  match e with
  | ChainInvoke _ _ => true
  | _ => false
  end.

Definition is_human (m : message) : bool :=
  match m with
  | HumanMessage _ => true
  | AIMessage _ => false
  end.

(** The events [moderate_input] adds when category [c] is the first to
    match: the checks up to [c] and nothing after. *)
Definition checks_through (c : category) (text : string) : list event :=
  (fun c' => RuleCheck c' text) <$> (earlier c ++ [c]).

(** The turn-level guarantee of section 4.5 of the specification: the
    session holds [before] followed by exactly one Human turn (the input)
    and one Assistant turn, whose content is the string returned. *)
Definition one_turn_recorded (before after : list message)
    (user_input returned : string) : Prop :=
  after = before ++ [HumanMessage user_input; AIMessage returned].



(** The history after the repair: the last message dropped when it is an
    [AIMessage], then [text] added as an [AIMessage]. *)
Definition repaired (h : list message) (text : string) : list message :=
  (if ends_with_ai h then removelast h else h) ++ [AIMessage text].





(** ** Scenarios *)

(** A freshly started process: the configured moderator, no session, no
    call made yet. *)
Definition fresh_world : world :=
  {| moderator := ChatbotModerator_init;
     langchain_memory_store := ∅;
     trace := [] |}.

Definition moderation_answers (raw : string)
    : list event -> string -> outcome string :=
  fun _ _ => Returned raw.

Definition moderation_raises : list event -> string -> outcome string :=
  fun _ _ => Raised.

Definition chain_answers (reply : string)
    : list event -> list message -> string -> chain_result :=
  fun _ _ _ => ChainReturned reply.

(** The chat chain fails and, as [RunnableWithMessageHistory] does when the
    wrapped chain raises, has written nothing to the history. *)
Definition chain_raises : list event -> list message -> string -> chain_result :=
  fun _ _ _ => ChainRaised [].

(** A session that already holds one exchange. *)
Definition greeted_world : world :=
  set_history "s1" [HumanMessage "hi"; AIMessage "Hello! How can I help?"]
    fresh_world.



(** ** What the further statements are phrased with *)

Definition count_where (p : event -> bool) (evs : list event) : nat :=
  length (List.filter p evs).

Definition any_rule_matches (m : ChatbotModerator) (text : string) : bool :=
  rule_matches m HateSpeech text || rule_matches m PII text
  || rule_matches m Jailbreak text.

Definition not_upper (c : ascii) : bool := negb (PyStr.is_upper c).

(** The configured jailbreak phrases that hold no capital letter. *)
Definition lowercase_jailbreak_phrases : list string :=
  List.filter (PyStr.all_chars not_upper) Config.MODERATION_JAILBREAK_PHRASES.


(** The last character of [s], or [prev] when [s] is empty. *)
Fixpoint last_char (prev : option ascii) (s : string) : option ascii :=
  match s with
  | EmptyString => prev
  | String c s' => last_char (Some c) s'
  end.


(** The widgets [ws] with [sep] between each two that follow one another. *)
Fixpoint separated (sep : App.widget) (ws : list App.widget)
    : list App.widget :=
  match ws with
  | [] => []
  | w :: rest =>
      match rest with
      | [] => [w]
      | _ => w :: sep :: separated sep rest
      end
  end.

(** The sum of the values under the keys [ks]. *)
Definition total_of (d : Dashboard.log_data) (ks : list Dashboard.counter)
    : nat :=
  foldr (fun k acc => (Dashboard.count d k + acc)%nat) O ks.

(** The instance a getter of [LLMService] keeps. *)
Definition instance_of (g : LLMService.getter) (s : LLMService.state)
    : option LLMService.ChatOpenAI :=
  match g with
  | LLMService.GetChat => LLMService._chat_llm_instance s
  | LLMService.GetModeration => LLMService._moderation_llm_instance s
  end.

Definition temperature_for (g : LLMService.getter) : LLMService.temperature :=
  match g with
  | LLMService.GetChat => LLMService.LLM_TEMPERATURE_CHATBOT
  | LLMService.GetModeration => LLMService.LLM_TEMPERATURE_MODERATION
  end.

Definition built_by (g : LLMService.getter) (s : LLMService.state) : nat :=
  match instance_of g s with
  | Some _ => 1
  | None => 0
  end.

(** What holds of the class attributes throughout a process whose key is
    set: each instance kept was built with the temperature of its getter,
    the two instances are different objects, and the objects built are the
    instances kept. *)
Definition service_consistent (s : LLMService.state) : Prop :=
  is_Some (LLMService.usable_key (LLMService.OPENAI_API_KEY s))
  /\ (forall g llm, instance_of g s = Some llm ->
        (LLMService.object_id llm < LLMService.objects_built s)%nat
        /\ LLMService.temperature_of llm = temperature_for g)
  /\ (forall c m,
        instance_of LLMService.GetChat s = Some c ->
        instance_of LLMService.GetModeration s = Some m ->
        LLMService.object_id c ≠ LLMService.object_id m)
  /\ LLMService.objects_built s
     = (built_by LLMService.GetChat s + built_by LLMService.GetModeration s)%nat.

(** ** The world operations *)

Lemma note_note evs evs' w : note evs' (note evs w) = note (evs ++ evs') w.
Proof. unfold note; simpl. by rewrite app_assoc. Qed.

Lemma note_nil w : note [] w = w.
Proof. destruct w; unfold note; simpl. by rewrite app_nil_r. Qed.

Lemma history_note evs w sid : history (note evs w) sid = history w sid.
Proof. reflexivity. Qed.

Lemma history_set_history sid h w : history (set_history sid h w) sid = h.
Proof. unfold history, set_history; simpl. by rewrite lookup_insert_eq. Qed.

Lemma history_set_history_ne sid sid' h w :
  sid ≠ sid' -> history (set_history sid h w) sid' = history w sid'.
Proof.
  intros Hne. unfold history, set_history; simpl. by rewrite lookup_insert_ne.
Qed.

Lemma set_history_twice sid h h' w :
  set_history sid h' (set_history sid h w) = set_history sid h' w.
Proof. unfold set_history, set_store; simpl. by rewrite insert_insert_eq. Qed.

Lemma note_set_history evs sid h w :
  note evs (set_history sid h w) = set_history sid h (note evs w).
Proof. reflexivity. Qed.

Lemma trace_set_history sid h w : trace (set_history sid h w) = trace w.
Proof. reflexivity. Qed.

Lemma moderator_set_history sid h w :
  moderator (set_history sid h w) = moderator w.
Proof. reflexivity. Qed.

Lemma get_session_history_spec sid w :
  exists w', get_session_history sid w = (Returned tt, w')
    /\ trace w' = trace w /\ moderator w' = moderator w
    /\ (forall sid', history w' sid' = history w sid').
Proof.
  unfold get_session_history.
  destruct (langchain_memory_store w !! sid) eqn:E.
  - exists w. repeat split.
  - exists (set_history sid [] w). repeat split.
    intros sid'. destruct (decide (sid = sid')) as [<-|Hne].
    + rewrite history_set_history. unfold history. by rewrite E.
    + by apply history_set_history_ne.
Qed.

(** ** [moderate_input], case by case *)

Section ModerateInput.

Variable llm_moderation : list event -> string -> outcome string.

(** What a call of [moderate_input] does, in one equation. *)
Lemma moderate_input_cases text w :
  moderate_input llm_moderation text w =
    if rule_matches (moderator w) HateSpeech text then
      (Returned (false, HATE_SPEECH_REASON), note [RuleCheck HateSpeech text] w)
    else if rule_matches (moderator w) PII text then
      (Returned (false, PII_REASON),
       note [RuleCheck HateSpeech text; RuleCheck PII text] w)
    else if rule_matches (moderator w) Jailbreak text then
      (Returned (false, JAILBREAK_REASON), note (rule_events text) w)
    else
      (Returned
         match llm_moderation (trace w ++ rule_events text) text with
         | Returned raw => verdict (PyStr.upper (PyStr.strip raw))
         | Raised => (false, MODERATION_ERROR_REASON)
         end,
       note (rule_events text ++ [ModerationInvoke text]) w).
Proof.
  unfold moderate_input, mbind, M_bind, mret, M_ret, record, try_except,
    _check_for_hate_speech, _check_for_pii, _check_for_jailbreak_attempts,
    moderation_chain_invoke, rule_matches.
  cbn [moderator note].
  destruct (any_keyword_in _ _); [reflexivity|].
  rewrite note_note. cbn [moderator note app].
  destruct (any_pattern_found _ _); [reflexivity|].
  rewrite note_note. cbn [moderator note app].
  destruct (any_keyword_in _ _); [reflexivity|].
  cbn [trace note].
  destruct (llm_moderation _ _); rewrite note_note; reflexivity.
Qed.

(** The first category to match decides, and the call stops there. *)
Lemma moderate_input_first_match text w c :
  rule_matches (moderator w) c text = true ->
  (forall c', c' ∈ earlier c -> rule_matches (moderator w) c' text = false) ->
  moderate_input llm_moderation text w =
    (Returned (false, canned_reason c), note (checks_through c text) w).
Proof.
  intros Hc Hearlier. rewrite moderate_input_cases.
  destruct c; cbn [earlier] in Hearlier.
  - by rewrite Hc.
  - rewrite (Hearlier HateSpeech), Hc by set_solver. reflexivity.
  - rewrite (Hearlier HateSpeech), (Hearlier PII), Hc by set_solver.
    reflexivity.
Qed.

(** A call of [moderate_input] returns; what it returns and the calls it
    makes depend on the moderator and on the trace only, and the chat chain
    is not among the calls. *)
Lemma moderate_input_frame text w :
  exists d evs,
    (forall w1, moderator w1 = moderator w -> trace w1 = trace w ->
       moderate_input llm_moderation text w1 = (Returned d, note evs w1))
    /\ existsb is_chain_invoke evs = false.
Proof.
  destruct (rule_matches (moderator w) HateSpeech text) eqn:E1;
    [|destruct (rule_matches (moderator w) PII text) eqn:E2;
      [|destruct (rule_matches (moderator w) Jailbreak text) eqn:E3]].
  all: eexists _, _; split;
    [intros w1 Hm Ht;
     rewrite moderate_input_cases, Hm, Ht, ?E1, ?E2, ?E3; reflexivity|].
  all: reflexivity.
Qed.

End ModerateInput.

(** ** Facts about the string operations *)

Lemma append_cons_nonempty a s t : String a s +:+ t ≠ "".
Proof. discriminate. Qed.




(** ** The claims about [moderate_input] *)

Section ModerateInputClaims.

Variable llm_moderation : list event -> string -> outcome string.

(** C1. Fail closed: when no rule matches, so that the moderation chain is
    invoked, and that invocation raises, [moderate_input] returns (it does
    not raise) the decision [allowed = false] with the moderation-error
    reason, which is not empty; the trace shows the one invocation. *)
Theorem moderate_input_fails_closed (text : string) (w : world) :
  (forall c, rule_matches (moderator w) c text = false) ->
  llm_moderation (trace w ++ rule_events text) text = Raised ->
  moderate_input llm_moderation text w =
    (Returned (false, MODERATION_ERROR_REASON),
     note (rule_events text ++ [ModerationInvoke text]) w)
  /\ MODERATION_ERROR_REASON ≠ "".
Proof.
  intros Hrules Hraise. split; [|discriminate].
  rewrite moderate_input_cases, !Hrules, Hraise. reflexivity.
Qed.

(** C3. Rule priority: if category [c] matches and no category before it in
    the order hate-speech, PII, jailbreak does, [moderate_input] returns
    [allowed = false] with the canned reason of [c], whatever the later
    categories would say; the calls it has made are the checks up to [c] in
    that order, with no later check and no invocation of the classifier. *)
Theorem moderate_input_rule_priority (text : string) (w : world) (c : category) :
  rule_matches (moderator w) c text = true ->
  (forall c', c' ∈ earlier c -> rule_matches (moderator w) c' text = false) ->
  moderate_input llm_moderation text w =
    (Returned (false, canned_reason c), note (checks_through c text) w)
  /\ existsb is_moderation_invoke (checks_through c text) = false.
Proof.
  intros Hc Hearlier. split; [|by destruct c].
  by apply moderate_input_first_match.
Qed.


(** C6. Every call of [moderate_input] returns a decision, and in it the
    reason is empty exactly when [allowed] is true. *)
Theorem moderate_input_reason_iff_allowed (text : string) (w : world) :
  exists d w',
    moderate_input llm_moderation text w = (Returned d, w')
    /\ (reason d = "" <-> allowed d = true).
Proof.
  rewrite moderate_input_cases.
  repeat match goal with
         | |- context [if ?b then _ else _] => destruct b
         end;
    try (eexists _, _; split; [reflexivity|]; cbn; split; discriminate).
  eexists _, _; split; [reflexivity|].
  destruct (llm_moderation _ _) as [raw|]; [|cbn; split; discriminate].
  unfold verdict.
  destruct (PyStr.startswith _ _); [cbn; split; discriminate|].
  destruct (PyStr.contains _ _); cbn; [done|split; discriminate].
Qed.

End ModerateInputClaims.

(** ** The history repair *)

Lemma ends_with_ai_snoc h m :
  ends_with_ai (h ++ [m]) = negb (is_human m).
Proof. unfold ends_with_ai. rewrite last_snoc. by destruct m. Qed.

Lemma repaired_nil text : repaired [] text = [AIMessage text].
Proof. reflexivity. Qed.

Lemma repaired_ai h c text :
  repaired (h ++ [AIMessage c]) text = h ++ [AIMessage text].
Proof.
  unfold repaired. by rewrite ends_with_ai_snoc, removelast_last.
Qed.




Lemma replace_last_ai_spec sid text w :
  replace_last_ai sid text w
  = (Returned tt, set_history sid (repaired (history w sid) text) w).
Proof.
  unfold replace_last_ai, repaired, mbind, M_bind, mret, M_ret, messages,
    add_ai_message, add_message, pop, ends_with_ai.
  destruct (last (history w sid)) as [[c|c]|] eqn:E; try reflexivity.
  rewrite E. cbn iota beta. by rewrite history_set_history, set_history_twice.
Qed.

(** ** The claims about [get_response] *)

Section GetResponseClaims.

Variable llm_moderation : list event -> string -> outcome string.
Variable chat_chain : list event -> list message -> string -> chain_result.

(** C7. When input moderation blocks the input with reason [r],
    [get_response] returns the refusal made of the input-blocked marker and
    [r]; the session history has grown by the Human turn holding the input
    and then the Assistant turn holding that refusal; the other sessions are
    as before; and the chat chain is not among the calls made. *)
Theorem get_response_input_blocked (user_input session_id : string)
    (w : world) (r : string) :
  fst (moderate_input llm_moderation user_input w) = Returned (false, r) ->
  let refusal := INPUT_BLOCKED_MARKER +:+ r in
  exists w' evs,
    get_response llm_moderation chat_chain user_input session_id w
      = (Returned refusal, w')
    /\ history w' session_id
       = history w session_id ++ [HumanMessage user_input; AIMessage refusal]
    /\ (forall sid, sid ≠ session_id -> history w' sid = history w sid)
    /\ trace w' = trace w ++ evs
    /\ existsb is_chain_invoke evs = false
    /\ INPUT_BLOCKED_MARKER ≠ OUTPUT_BLOCKED_MARKER.
Proof.
  intros Hblocked refusal.
  destruct (moderate_input_frame llm_moderation user_input w)
    as (d & evs & Hrun & Hevs).
  rewrite (Hrun w eq_refl eq_refl) in Hblocked. cbn in Hblocked.
  injection Hblocked as ->.
  destruct (get_session_history_spec session_id w)
    as (w1 & Hget & Htrace & Hmod & Hhist).
  eexists _, evs. split; [|split; [|split; [|split; [|split]]]].
  - unfold get_response, mbind, M_bind. rewrite Hget, (Hrun w1 Hmod Htrace).
    reflexivity.
  - unfold add_ai_message, add_user_message, add_message.
    rewrite !history_set_history, history_note, Hhist.
    by rewrite <- app_assoc.
  - intros sid Hne. unfold add_ai_message, add_user_message, add_message.
    rewrite !history_set_history_ne by done.
    by rewrite history_note, Hhist.
  - cbn. by rewrite Htrace.
  - exact Hevs.
  - discriminate.
Qed.



End GetResponseClaims.

(** ** Whitespace and the rule checks *)










(** ** The claims about the rule checks *)


Section RuleCheckClaims.

Variable llm_moderation : list event -> string -> outcome string.

(** C9. The rule checks are pure: the check of a category, called twice in
    a row on the same text, returns the same truth value both times and
    leaves the world as it was; its value depends on the moderator's lists
    and the text only; and when a rule matches, two calls of
    [moderate_input] in a row return the same decision, with the
    moderator's lists and the session store unchanged. *)
Theorem rule_checks_deterministic (c : category) (text : string) (w : world) :
  (x ← check c text; y ← check c text; mret (x, y)) w
    = (Returned (rule_matches (moderator w) c text,
                 rule_matches (moderator w) c text), w)
  /\ (forall w2, moderator w2 = moderator w ->
        fst (check c text w2) = fst (check c text w))
  /\ (rule_matches (moderator w) c text = true ->
      (forall c', c' ∈ earlier c -> rule_matches (moderator w) c' text = false) ->
      exists w',
        (d1 ← moderate_input llm_moderation text;
         d2 ← moderate_input llm_moderation text;
         mret (d1, d2)) w
          = (Returned ((false, canned_reason c), (false, canned_reason c)), w')
        /\ moderator w' = moderator w
        /\ langchain_memory_store w' = langchain_memory_store w).
Proof.
  split; [by destruct c|]. split.
  - intros w2 Hm. destruct c; cbn; by rewrite Hm.
  - intros Hc Hearlier. eexists. split; [|split].
    + unfold mbind, M_bind.
      rewrite (moderate_input_first_match _ _ _ _ Hc Hearlier).
      rewrite (moderate_input_first_match _ _ _ c) by done.
      reflexivity.
    + reflexivity.
    + reflexivity.
Qed.

End RuleCheckClaims.

(** ** The path on which the chat chain raises *)

Lemma get_response_chain_failure llm_moderation chat_chain
    (user_input session_id : string) (w : world) (r : string)
    (evs : list event) (partial : list message) :
  moderate_input llm_moderation user_input w = (Returned (true, r), note evs w) ->
  chat_chain (trace w ++ evs) (history w session_id) user_input
    = ChainRaised partial ->
  exists w',
    get_response llm_moderation chat_chain user_input session_id w
      = (Returned DEFAULT_ERROR_MESSAGE, w')
    /\ history w' session_id
       = repaired (history w session_id ++ partial) DEFAULT_ERROR_MESSAGE.
Proof.
  intros Hallowed Hchain.
  destruct (moderate_input_frame llm_moderation user_input w)
    as (d & evs' & Hrun & _).
  pose proof (Hrun w eq_refl eq_refl) as Hw. rewrite Hallowed in Hw.
  injection Hw as <- Hevs. apply app_inv_head in Hevs as <-.
  destruct (get_session_history_spec session_id w)
    as (w1 & Hget & Htrace & Hmod & Hhist).
  eexists. split.
  - unfold get_response, mbind, M_bind. rewrite Hget, (Hrun w1 Hmod Htrace).
    cbn [negb]. unfold try_assign, chain_invoke.
    cbn [trace note]. rewrite history_note, Htrace, Hhist, Hchain.
    unfold on_chain_error, mbind, M_bind, mret, M_ret.
    rewrite replace_last_ai_spec. reflexivity.
  - by rewrite !history_set_history.
Qed.

(** C2, the path it fails on.  The input passes moderation and the chat
    chain raises without having written to the history.  In a new session
    the history then holds the error message alone, with no Human turn for
    the input; in a session that already holds an exchange, the Assistant
    turn of that earlier exchange is dropped and the error message stands
    in its place.  In neither case has the session grown by one Human turn
    and one Assistant turn. *)
Theorem get_response_chain_failure_history :
  let run := get_response (moderation_answers "SAFE") chain_raises
               "What's the weather like?" "s1" in
  fst (run fresh_world) = Returned DEFAULT_ERROR_MESSAGE
  /\ history (snd (run fresh_world)) "s1" = [AIMessage DEFAULT_ERROR_MESSAGE]
  /\ ~ one_turn_recorded (history fresh_world "s1")
         (history (snd (run fresh_world)) "s1")
         "What's the weather like?" DEFAULT_ERROR_MESSAGE
  /\ fst (run greeted_world) = Returned DEFAULT_ERROR_MESSAGE
  /\ history (snd (run greeted_world)) "s1"
     = [HumanMessage "hi"; AIMessage DEFAULT_ERROR_MESSAGE]
  /\ ~ one_turn_recorded (history greeted_world "s1")
         (history (snd (run greeted_world)) "s1")
         "What's the weather like?" DEFAULT_ERROR_MESSAGE.
Proof.
  unfold one_turn_recorded. vm_compute. repeat split; discriminate.
Qed.

(** The three end-to-end scenarios of section 8 of the specification. *)
Example scenario_input_blocked :
  let run := get_response (moderation_answers "SAFE") (chain_answers "unused")
               "I hate you, I will kill everyone" "s1" fresh_world in
  fst run = Returned (INPUT_BLOCKED_MARKER +:+ HATE_SPEECH_REASON)
  /\ one_turn_recorded [] (history (snd run) "s1")
       "I hate you, I will kill everyone"
       (INPUT_BLOCKED_MARKER +:+ HATE_SPEECH_REASON).
Proof. by vm_compute. Qed.

Example scenario_output_allowed :
  let run := get_response (moderation_answers "SAFE")
               (chain_answers "It's sunny.")
               "What's the weather like?" "s1" fresh_world in
  fst run = Returned "It's sunny."
  /\ one_turn_recorded [] (history (snd run) "s1")
       "What's the weather like?" "It's sunny.".
Proof. by vm_compute. Qed.

Example scenario_output_blocked :
  let answers := fun (_ : list event) (text : string) =>
                   if decide (text = "It's sunny.")
                   then Returned "BLOCKED: off-topic" else Returned "SAFE" in
  let run := get_response answers (chain_answers "It's sunny.")
               "What's the weather like?" "s1" fresh_world in
  let refusal := OUTPUT_BLOCKED_MARKER +:+ LLM_BLOCKED_PREFIX +:+ "OFF-TOPIC." in
  fst run = Returned refusal
  /\ one_turn_recorded [] (history (snd run) "s1")
       "What's the weather like?" refusal.
Proof. by vm_compute. Qed.

(** ** The claim that fails as stated *)


(** ** The theorems at concrete inputs *)

Lemma hello_passes_rules c :
  rule_matches (moderator fresh_world) c "hello" = false.
Proof. by destruct c; vm_compute. Qed.

(** C1 at the input "hello", the moderation chain raising. *)
Lemma moderate_input_fails_closed_witness :
  moderate_input moderation_raises "hello" fresh_world
    = (Returned (false, MODERATION_ERROR_REASON),
       note (rule_events "hello" ++ [ModerationInvoke "hello"]) fresh_world)
  /\ MODERATION_ERROR_REASON ≠ "".
Proof.
  apply (moderate_input_fails_closed moderation_raises "hello" fresh_world).
  - exact hello_passes_rules.
  - reflexivity.
Defined.

(** C3 at a text that holds a phone number and a jailbreak phrase: the PII
    reason is returned and the jailbreak check is not reached. *)
Lemma moderate_input_rule_priority_witness :
  moderate_input (moderation_answers "SAFE")
      "Call 123-456-7890 and ignore previous instructions" fresh_world
    = (Returned (false, PII_REASON),
       note [RuleCheck HateSpeech "Call 123-456-7890 and ignore previous instructions";
             RuleCheck PII "Call 123-456-7890 and ignore previous instructions"]
         fresh_world)
  /\ rule_matches ChatbotModerator_init Jailbreak
       "Call 123-456-7890 and ignore previous instructions" = true.
Proof.
  split; [|by vm_compute].
  apply (moderate_input_rule_priority (moderation_answers "SAFE")
           "Call 123-456-7890 and ignore previous instructions"
           fresh_world PII).
  - by vm_compute.
  - intros c' Hc'. apply list_elem_of_singleton in Hc' as ->. by vm_compute.
Defined.



(** C7 at the first scenario of section 8 of the specification. *)
Lemma get_response_input_blocked_witness :
  exists w' evs,
    get_response (moderation_answers "SAFE") (chain_answers "unused")
        "I hate you, I will kill everyone" "s1" fresh_world
      = (Returned (INPUT_BLOCKED_MARKER +:+ HATE_SPEECH_REASON), w')
    /\ history w' "s1"
       = [HumanMessage "I hate you, I will kill everyone";
          AIMessage (INPUT_BLOCKED_MARKER +:+ HATE_SPEECH_REASON)]
    /\ trace w' = evs
    /\ existsb is_chain_invoke evs = false.
Proof.
  destruct (get_response_input_blocked (moderation_answers "SAFE")
              (chain_answers "unused") "I hate you, I will kill everyone"
              "s1" fresh_world HATE_SPEECH_REASON eq_refl)
    as (w' & evs & Hrun & Hhist & _ & Htrace & Hevs & _).
  exists w', evs. repeat split; assumption.
Defined.


(** C9 at "I hate Mondays.", which the hate-speech check matches. *)
Lemma rule_checks_deterministic_witness :
  exists w',
    (d1 ← moderate_input (moderation_answers "SAFE") "I hate Mondays.";
     d2 ← moderate_input (moderation_answers "SAFE") "I hate Mondays.";
     mret (d1, d2)) fresh_world
      = (Returned ((false, HATE_SPEECH_REASON), (false, HATE_SPEECH_REASON)), w')
    /\ moderator w' = moderator fresh_world
    /\ langchain_memory_store w' = langchain_memory_store fresh_world.
Proof.
  apply (rule_checks_deterministic (moderation_answers "SAFE") HateSpeech
           "I hate Mondays." fresh_world).
  - by vm_compute.
  - intros c' Hc'. by apply elem_of_nil in Hc'.
Defined.


(** * Further properties of the code *)

(** ** More facts about the string operations *)

Lemma append_cons c a b : String c a +:+ b = String c (a +:+ b).
Proof. reflexivity. Qed.

Lemma lower_app a b : PyStr.lower (a +:+ b) = PyStr.lower a +:+ PyStr.lower b.
Proof.
  unfold PyStr.lower. induction a as [|c a IH]; [reflexivity|].
  rewrite append_cons. cbn [PyStr.map_chars]. by rewrite IH.
Qed.

Lemma startswith_app k s : PyStr.startswith k (k +:+ s) = true.
Proof.
  induction k as [|c k IH]; [reflexivity|].
  rewrite append_cons. cbn [PyStr.startswith]. by case_decide.
Qed.

Lemma contains_here k s :
  PyStr.startswith k s = true -> PyStr.contains k s = true.
Proof. intros H. destruct s; cbn [PyStr.contains]; by rewrite H. Qed.

Lemma contains_app k a b : PyStr.contains k (a +:+ k +:+ b) = true.
Proof.
  induction a as [|c a IH].
  - change ("" +:+ k +:+ b) with (k +:+ b).
    apply contains_here, startswith_app.
  - rewrite append_cons. cbn [PyStr.contains]. rewrite IH. apply orb_true_r.
Qed.

Lemma any_keyword_in_elem ks k s :
  k ∈ ks -> PyStr.contains k s = true -> any_keyword_in ks s = true.
Proof.
  intros Hin Hk. induction ks as [|k' ks IH]; [by apply elem_of_nil in Hin|].
  cbn [any_keyword_in]. destruct (PyStr.contains k' s) eqn:E; [reflexivity|].
  apply elem_of_cons in Hin as [->|Hin]; [congruence|by apply IH].
Qed.

Lemma startswith_all_chars P k s :
  PyStr.startswith k s = true ->
  PyStr.all_chars P s = true -> PyStr.all_chars P k = true.
Proof.
  revert s. induction k as [|a k IH]; intros [|b s]; try done.
  cbn [PyStr.startswith PyStr.all_chars]. case_decide as E; [|done].
  subst b. intros Hk [Hb Hs]%andb_true_iff. by rewrite Hb, (IH s).
Qed.

Lemma contains_all_chars P k s :
  PyStr.contains k s = true ->
  PyStr.all_chars P s = true -> PyStr.all_chars P k = true.
Proof.
  induction s as [|c s IH]; cbn [PyStr.contains].
  - rewrite orb_false_r. apply startswith_all_chars.
  - intros [H|H]%orb_true_iff Hs.
    + by apply (startswith_all_chars _ _ _ H).
    + cbn [PyStr.all_chars] in Hs. apply andb_true_iff in Hs as [_ Hs].
      by apply IH.
Qed.

Lemma lower_char_not_upper c : not_upper (PyStr.lower_char c) = true.
Proof. by destruct c as [[] [] [] [] [] [] [] []]; vm_compute. Qed.

Lemma lower_not_upper s : PyStr.all_chars not_upper (PyStr.lower s) = true.
Proof.
  unfold PyStr.lower. induction s as [|c s IH]; [reflexivity|].
  cbn [PyStr.map_chars PyStr.all_chars]. by rewrite lower_char_not_upper, IH.
Qed.

(** A keyword that holds a capital letter is in no lower-cased text. *)
Lemma capital_keyword_absent k s :
  PyStr.all_chars not_upper k = false ->
  PyStr.contains k (PyStr.lower s) = false.
Proof.
  intros Hk. destruct (PyStr.contains k (PyStr.lower s)) eqn:E; [|done].
  by rewrite (contains_all_chars _ _ _ E (lower_not_upper s)) in Hk.
Qed.

Lemma any_keyword_in_lowercase ks s :
  any_keyword_in ks (PyStr.lower s)
  = any_keyword_in (List.filter (PyStr.all_chars not_upper) ks) (PyStr.lower s).
Proof.
  induction ks as [|k ks IH]; [reflexivity|].
  cbn [any_keyword_in List.filter].
  destruct (PyStr.all_chars not_upper k) eqn:E.
  - cbn [any_keyword_in]. by rewrite IH.
  - by rewrite (capital_keyword_absent _ _ E).
Qed.

(** ** Further properties of [moderate_input] *)

Section ModerateInputProperties.

Variable llm_moderation : list event -> string -> outcome string.

(** A sharper form of the frame of [moderate_input]: the classifier is
    invoked once when no rule matches and not at all otherwise. *)
Lemma moderate_input_calls text w :
  exists d evs,
    (forall w1, moderator w1 = moderator w -> trace w1 = trace w ->
       moderate_input llm_moderation text w1 = (Returned d, note evs w1))
    /\ count_where is_moderation_invoke evs
       = (if any_rule_matches (moderator w) text then 0 else 1)%nat
    /\ count_where is_chain_invoke evs = O
    /\ (any_rule_matches (moderator w) text = true -> allowed d = false).
Proof.
  unfold any_rule_matches.
  destruct (rule_matches (moderator w) HateSpeech text) eqn:E1;
    [|destruct (rule_matches (moderator w) PII text) eqn:E2;
      [|destruct (rule_matches (moderator w) Jailbreak text) eqn:E3]].
  all: eexists _, _; split;
    [intros w1 Hm Ht;
     rewrite moderate_input_cases, Hm, Ht, ?E1, ?E2, ?E3; reflexivity|].
  all: by repeat split.
Qed.

(** X1. Every call of [moderate_input] returns, leaving the moderator's
    lists and the session store as they were; it invokes the moderation
    chain exactly once when no rule matches and never when one does; it
    never invokes the chat chain; and a text that a rule matches is never
    allowed. *)
Theorem moderate_input_invokes_classifier_once (text : string) (w : world) :
  exists d evs,
    moderate_input llm_moderation text w = (Returned d, note evs w)
    /\ count_where is_moderation_invoke evs
       = (if any_rule_matches (moderator w) text then 0 else 1)%nat
    /\ count_where is_chain_invoke evs = O
    /\ (any_rule_matches (moderator w) text = true -> allowed d = false).
Proof.
  destruct (moderate_input_calls text w) as (d & evs & Hrun & H).
  exists d, evs. split; [by apply Hrun|exact H].
Qed.

(** X2. Keyword matching ignores letter case and word boundaries: a text
    that holds, anywhere, a spelling in any letter case of one of the
    moderator's hate-speech keywords is blocked with the hate-speech reason
    after the first check, the classifier not being invoked; and a text that
    holds such a spelling of a jailbreak phrase makes the jailbreak check
    return [True]. *)
Theorem keyword_in_any_case_matches (w : world)
    (kw pre spelling post : string) :
  PyStr.lower spelling = kw ->
  (kw ∈ hate_speech_keywords (moderator w) ->
   moderate_input llm_moderation (pre +:+ spelling +:+ post) w
   = (Returned (false, HATE_SPEECH_REASON),
      note [RuleCheck HateSpeech (pre +:+ spelling +:+ post)] w))
  /\ (kw ∈ jailbreak_phrases (moderator w) ->
      _check_for_jailbreak_attempts (pre +:+ spelling +:+ post) w
      = (Returned true, w)).
Proof.
  intros Hkw.
  assert (PyStr.contains kw (PyStr.lower (pre +:+ spelling +:+ post)) = true)
    as Hin by (rewrite !lower_app, Hkw; apply contains_app).
  split; intros Hmem.
  - rewrite moderate_input_cases. cbn [rule_matches].
    by rewrite (any_keyword_in_elem _ _ _ Hmem Hin).
  - unfold _check_for_jailbreak_attempts.
    by rewrite (any_keyword_in_elem _ _ _ Hmem Hin).
Qed.

End ModerateInputProperties.

(** X3. Two configured jailbreak phrases end in the capitals "AI"; since
    the text is lower-cased before the search, neither is ever found, and
    the jailbreak check with the configured list is the check with the
    sixteen phrases that hold no capital letter. *)
Theorem capitalised_phrases_never_match (text : string) :
  PyStr.contains "you are no longer an AI" (PyStr.lower text) = false
  /\ PyStr.contains "act like a different AI" (PyStr.lower text) = false
  /\ rule_matches ChatbotModerator_init Jailbreak text
     = any_keyword_in lowercase_jailbreak_phrases (PyStr.lower text)
  /\ length lowercase_jailbreak_phrases = 16%nat
  /\ length Config.MODERATION_JAILBREAK_PHRASES = 18%nat.
Proof.
  repeat split.
  - by apply capital_keyword_absent.
  - by apply capital_keyword_absent.
  - apply any_keyword_in_lowercase.
Qed.

(** ** The configured patterns *)






Lemma search_from_app p pre s prev :
  Re.match_here p (last_char prev pre) s = true ->
  Re.search_from p prev (pre +:+ s) = true.
Proof.
  revert prev. induction pre as [|c pre IH]; intros prev H.
  - change ("" +:+ s) with s. cbn [last_char] in H.
    destruct s; cbn [Re.search_from]; by rewrite H.
  - rewrite append_cons. cbn [Re.search_from]. rewrite (IH (Some c) H).
    apply orb_true_r.
Qed.


Lemma append_nil_l s : "" +:+ s = s.
Proof. reflexivity. Qed.


Lemma match_rep_take cls lo hi rest prev c s :
  cls c = true ->
  Re.match_here (Re.Rep cls (Nat.pred lo) (Some hi) :: rest) (Some c) s = true ->
  Re.match_here (Re.Rep cls lo (Some (S hi)) :: rest) prev (String c s) = true.
Proof.
  intros Hc Hr. cbn [Re.match_here] in *.
  change (Nat.pred <$> Some (S hi)) with (Some hi).
  rewrite Hc, Hr. cbn. apply orb_true_r.
Qed.

Lemma match_rep_done cls hi rest prev s :
  Re.match_here rest prev s = true ->
  Re.match_here (Re.Rep cls 0 hi :: rest) prev s = true.
Proof. intros Hr. cbn [Re.match_here]. destruct s; by rewrite Hr. Qed.





Lemma match_rep_many cls rest s1 :
  forall lo prev s2,
    PyStr.all_chars cls s1 = true ->
    (lo <= String.length s1)%nat ->
    Re.match_here rest (last_char prev s1) s2 = true ->
    Re.match_here (Re.Rep cls lo None :: rest) prev (s1 +:+ s2) = true.
Proof.
  induction s1 as [|c s1 IH]; intros lo prev s2 Hcls Hlen Hrest.
  - rewrite append_nil_l. cbn in Hlen. assert (lo = O) as -> by lia.
    by apply match_rep_done.
  - rewrite append_cons. cbn [PyStr.all_chars] in Hcls.
    apply andb_true_iff in Hcls as [Hc Hcls].
    specialize (IH (Nat.pred lo) (Some c) s2 Hcls).
    cbn [Re.match_here] in *. rewrite Hc.
    change (Nat.pred <$> None) with (@None nat).
    rewrite IH; [cbn; apply orb_true_r| |exact Hrest].
    cbn in Hlen. lia.
Qed.

(** X6. An e-mail address made of a non-empty local part (letters, digits
    and the characters [._%+-]), an at sign, a non-empty domain (letters,
    digits, dots and hyphens), a dot and two letters or more is flagged as
    PII wherever it stands in the text. *)
Theorem email_address_is_flagged (w : world)
    (pre local domain tld post : string) :
  moderator w = ChatbotModerator_init ->
  (1 <= String.length local)%nat ->
  PyStr.all_chars Config.email_local local = true ->
  (1 <= String.length domain)%nat ->
  PyStr.all_chars Config.email_domain domain = true ->
  (2 <= String.length tld)%nat ->
  PyStr.all_chars PyStr.is_alpha tld = true ->
  _check_for_pii
    (pre +:+ local +:+ "@" +:+ domain +:+ "." +:+ tld +:+ post) w
  = (Returned true, w).
Proof.
  intros Hm Ll Cl Ld Cd Lt Ct.
  unfold _check_for_pii. rewrite Hm.
  cbn [ChatbotModerator_init pii_regexes Config.MODERATION_KEYWORDS_PII
       any_pattern_found].
  assert (Re.search Config.EMAIL_REGEX
            (pre +:+ local +:+ "@" +:+ domain +:+ "." +:+ tld +:+ post)
          = true) as ->; [|by destruct (Re.search Config.PHONE_REGEX _)].
  apply search_from_app. unfold Config.EMAIL_REGEX.
  apply match_rep_many; [assumption..|].
  change ("@" +:+ domain +:+ "." +:+ tld +:+ post)
    with (String "@" (domain +:+ "." +:+ tld +:+ post)).
  apply match_rep_take; [reflexivity|]. apply match_rep_done.
  apply match_rep_many; [assumption..|].
  change ("." +:+ tld +:+ post) with (String "." (tld +:+ post)).
  apply match_rep_take; [reflexivity|]. apply match_rep_done.
  apply match_rep_many; [assumption..|]. reflexivity.
Qed.

(** ** Further properties of [get_response] *)

Lemma count_where_app p a b :
  count_where p (a ++ b) = (count_where p a + count_where p b)%nat.
Proof. unfold count_where. by rewrite List.filter_app, length_app. Qed.

Lemma last_two {A} (l : list A) a b : last (l ++ [a; b]) = Some b.
Proof.
  change (l ++ [a; b]) with (l ++ [a] ++ [b]). by rewrite app_assoc, last_snoc.
Qed.

Lemma last_repaired h text : last (repaired h text) = Some (AIMessage text).
Proof. unfold repaired. by rewrite last_snoc. Qed.

Lemma count_where_zero p evs e :
  count_where p evs = O -> e ∈ evs -> p e = false.
Proof.
  unfold count_where. intros H Hin. apply length_zero_iff_nil in H.
  destruct (p e) eqn:E; [|done].
  assert (In e (List.filter p evs)) as Hf
    by (apply List.filter_In; split; [by apply list_elem_of_In|done]).
  rewrite H in Hf. destruct Hf.
Qed.

Section GetResponseProperties.

Variable llm_moderation : list event -> string -> outcome string.
Variable chat_chain : list event -> list message -> string -> chain_result.

(** What the body of the [try] does once the chain has returned. *)
Lemma moderate_output_cases session_id llm_response w :
  exists ret w' evs,
    moderate_output llm_moderation session_id llm_response w = (Returned ret, w')
    /\ trace w' = trace w ++ evs
    /\ moderator w' = moderator w
    /\ (forall sid, sid ≠ session_id -> history w' sid = history w sid)
    /\ (count_where is_moderation_invoke evs <= 1)%nat
    /\ count_where is_chain_invoke evs = O
    /\ ((ret = llm_response /\ history w' session_id = history w session_id)
        \/ history w' session_id = repaired (history w session_id) ret).
Proof.
  destruct (moderate_input_calls llm_moderation llm_response w)
    as ([[] r] & evs & Hrun & Hmod & Hchain & _);
    pose proof (Hrun w eq_refl eq_refl) as Hw;
    eexists _, _, evs;
    (split; [unfold moderate_output, mbind, M_bind, mret, M_ret; rewrite Hw;
             cbn [negb]; rewrite ?replace_last_ai_spec; reflexivity|]).
  - split; [reflexivity|]. split; [reflexivity|]. split; [done|].
    split; [rewrite Hmod; destruct (any_rule_matches _ _); lia|].
    split; [exact Hchain|]. by left.
  - split; [reflexivity|]. split; [reflexivity|].
    split; [intros sid Hne; by rewrite history_set_history_ne|].
    split; [rewrite Hmod; destruct (any_rule_matches _ _); lia|].
    split; [exact Hchain|]. right. by rewrite history_set_history.
Qed.

(** Every run of [get_response], in one statement. *)
Lemma get_response_cases user_input session_id w :
  exists ret w' evs,
    get_response llm_moderation chat_chain user_input session_id w
      = (Returned ret, w')
    /\ trace w' = trace w ++ evs
    /\ moderator w' = moderator w
    /\ (forall sid, sid ≠ session_id -> history w' sid = history w sid)
    /\ (count_where is_moderation_invoke evs <= 2)%nat
    /\ (count_where is_chain_invoke evs <= 1)%nat
    /\ (forall e, e ∈ evs -> is_chain_invoke e = true ->
          e = ChainInvoke user_input session_id)
    /\ (history w' session_id
        = history w session_id ++ [HumanMessage user_input; AIMessage ret]
        \/ exists tr partial,
             chat_chain tr (history w session_id) user_input
               = ChainRaised partial
             /\ ret = DEFAULT_ERROR_MESSAGE
             /\ history w' session_id
                = repaired (history w session_id ++ partial)
                    DEFAULT_ERROR_MESSAGE).
Proof.
  destruct (get_session_history_spec session_id w)
    as (w1 & Hget & Htrace & Hmod & Hhist).
  destruct (moderate_input_calls llm_moderation user_input w)
    as ([[] r] & evs1 & Hrun & Hmod1 & Hchain1 & _).
  - (* the input passes moderation *)
    pose proof (Hrun w1 Hmod Htrace) as Hw1.
    assert (forall ret w',
      try_assign DEFAULT_ERROR_MESSAGE (chain_invoke chat_chain user_input session_id)
        (moderate_output llm_moderation session_id)
        (on_chain_error session_id) (note evs1 w1) = (Returned ret, w') ->
      get_response llm_moderation chat_chain user_input session_id w
        = (Returned ret, w')) as Hstep.
    { intros ret w' H. unfold get_response, mbind, M_bind.
      rewrite Hget, Hw1. exact H. }
    unfold try_assign, chain_invoke in Hstep.
    cbn [trace note] in Hstep. rewrite history_note, Htrace, Hhist in Hstep.
    destruct (chat_chain (trace w ++ evs1) (history w session_id) user_input)
      as [reply|partial] eqn:Hchain.
    + set (w3 := set_history session_id
                   (history w session_id
                      ++ [HumanMessage user_input; AIMessage reply])
                   (note [ChainInvoke user_input session_id] (note evs1 w1)))
        in *.
      destruct (moderate_output_cases session_id reply w3)
        as (ret & w' & evs2 & Hrun2 & Ht2 & Hm2 & Hh2 & Hc2 & Hcc2 & Hcase).
      exists ret, w', (evs1 ++ [ChainInvoke user_input session_id] ++ evs2).
      split; [apply Hstep; unfold try_except; by rewrite Hrun2|].
      split; [rewrite Ht2; cbn; rewrite Htrace; by rewrite <- !app_assoc|].
      split; [by rewrite Hm2|].
      split; [intros sid Hne; rewrite (Hh2 sid Hne); unfold w3;
              rewrite history_set_history_ne by done;
              by rewrite !history_note|].
      split; [rewrite !count_where_app, Hmod1; cbn;
              destruct (any_rule_matches _ _); lia|].
      split; [rewrite !count_where_app, Hchain1, Hcc2; cbn; lia|].
      split.
      * intros e [He|[He|He]%elem_of_app]%elem_of_app Hce.
        -- by rewrite (count_where_zero _ _ _ Hchain1 He) in Hce.
        -- by apply list_elem_of_singleton in He.
        -- by rewrite (count_where_zero _ _ _ Hcc2 He) in Hce.
      * left. destruct Hcase as [[-> Hh]|Hh]; rewrite Hh; unfold w3;
          rewrite history_set_history; [reflexivity|].
        change (history w session_id ++ [HumanMessage user_input; AIMessage reply])
          with (history w session_id ++ [HumanMessage user_input] ++ [AIMessage reply]).
        by rewrite app_assoc, repaired_ai, <- app_assoc.
    + eexists DEFAULT_ERROR_MESSAGE, _,
        (evs1 ++ [ChainInvoke user_input session_id]).
      split; [apply Hstep; unfold on_chain_error, mbind, M_bind, mret, M_ret;
              rewrite replace_last_ai_spec; reflexivity|].
      split; [cbn; rewrite Htrace; by rewrite <- !app_assoc|].
      split; [by rewrite !moderator_set_history|].
      split; [intros sid Hne; rewrite !history_set_history_ne by done;
              by rewrite !history_note|].
      split; [rewrite !count_where_app, Hmod1; cbn;
              destruct (any_rule_matches _ _); lia|].
      split; [rewrite !count_where_app, Hchain1; cbn; lia|].
      split.
      * intros e [He|He]%elem_of_app Hce.
        -- by rewrite (count_where_zero _ _ _ Hchain1 He) in Hce.
        -- by apply list_elem_of_singleton in He.
      * right. exists (trace w ++ evs1), partial.
        split; [exact Hchain|]. split; [reflexivity|].
        by rewrite !history_set_history.
  - (* the input is blocked *)
    exists (INPUT_BLOCKED_MARKER +:+ r). eexists. exists evs1.
    split; [unfold get_response, mbind, M_bind;
            rewrite Hget, (Hrun w1 Hmod Htrace); reflexivity|].
    unfold add_ai_message, add_user_message, add_message.
    split; [cbn; by rewrite Htrace|].
    split; [by rewrite !moderator_set_history|].
    split; [intros sid Hne; rewrite !history_set_history_ne by done;
            by rewrite history_note|].
    split; [rewrite Hmod1; destruct (any_rule_matches _ _); lia|].
    split; [rewrite Hchain1; lia|].
    split; [intros e He Hce;
            by rewrite (count_where_zero _ _ _ Hchain1 He) in Hce|].
    left. rewrite !history_set_history, history_note, Hhist.
    by rewrite <- app_assoc.
Qed.

(** A run of [get_response] ends with the string it returns as the last
    message of the session. *)
Lemma get_response_last user_input session_id w :
  exists ret w',
    get_response llm_moderation chat_chain user_input session_id w
      = (Returned ret, w')
    /\ last (history w' session_id) = Some (AIMessage ret).
Proof.
  destruct (get_response_cases user_input session_id w)
    as (ret & w' & evs & Hrun & _ & _ & _ & _ & _ & _ & Hcase).
  exists ret, w'. split; [exact Hrun|].
  destruct Hcase as [->|(tr & partial & _ & -> & ->)].
  - apply last_two.
  - apply last_repaired.
Qed.

(** X7. [get_response] always returns a string, whatever the two chains
    do, and when it has returned the last message of the session is an
    Assistant turn holding exactly that string. *)
Theorem get_response_returns_what_it_stores (user_input session_id : string)
    (w : world) :
  exists ret w',
    get_response llm_moderation chat_chain user_input session_id w
      = (Returned ret, w')
    /\ last (history w' session_id) = Some (AIMessage ret).
Proof. apply get_response_last. Qed.

(** X8. [get_response] leaves the messages of every other session, and
    the moderator's pattern lists, as they were. *)
Theorem get_response_touches_one_session (user_input session_id : string)
    (w : world) :
  exists ret w',
    get_response llm_moderation chat_chain user_input session_id w
      = (Returned ret, w')
    /\ moderator w' = moderator w
    /\ (forall sid, sid ≠ session_id -> history w' sid = history w sid).
Proof.
  destruct (get_response_cases user_input session_id w)
    as (ret & w' & evs & Hrun & _ & Hm & Hh & _).
  by exists ret, w'.
Qed.

(** X9. If the chat chain does not raise on this input, then whichever way
    the turn ends (input blocked, reply delivered, reply blocked) the session
    has grown by exactly the Human turn holding the input and one Assistant
    turn holding the string returned; a blocked raw reply is not among the
    messages added. *)
Theorem get_response_records_one_turn (user_input session_id : string)
    (w : world) :
  (forall tr partial,
     chat_chain tr (history w session_id) user_input ≠ ChainRaised partial) ->
  exists ret w',
    get_response llm_moderation chat_chain user_input session_id w
      = (Returned ret, w')
    /\ one_turn_recorded (history w session_id) (history w' session_id)
         user_input ret.
Proof.
  intros Hok.
  destruct (get_response_cases user_input session_id w)
    as (ret & w' & evs & Hrun & _ & _ & _ & _ & _ & _ & Hcase).
  exists ret, w'. split; [exact Hrun|].
  destruct Hcase as [H|(tr & partial & Hraise & _)]; [exact H|].
  by destruct (Hok tr partial).
Qed.

(** X10. No retries: one call of [get_response] invokes the chat chain at
    most once, and then with the user's input and the session's id, and
    invokes the moderation chain at most twice. *)
Theorem get_response_makes_no_retry (user_input session_id : string)
    (w : world) :
  exists ret w' evs,
    get_response llm_moderation chat_chain user_input session_id w
      = (Returned ret, w')
    /\ trace w' = trace w ++ evs
    /\ (count_where is_chain_invoke evs <= 1)%nat
    /\ (count_where is_moderation_invoke evs <= 2)%nat
    /\ (forall e, e ∈ evs -> is_chain_invoke e = true ->
          e = ChainInvoke user_input session_id).
Proof.
  destruct (get_response_cases user_input session_id w)
    as (ret & w' & evs & Hrun & Ht & _ & _ & Hm & Hc & He & _).
  by exists ret, w', evs.
Qed.

End GetResponseProperties.

(** ** [get_session_history] *)

(** X11. [get_session_history] never discards messages: after the call the
    session is in the store, every session holds the messages it held, the
    entries of the other sessions are untouched, a session that was already
    stored leaves the world as it was, and a second call changes nothing. *)
Theorem get_session_history_keeps_messages (session_id : string) (w : world) :
  exists w',
    get_session_history session_id w = (Returned tt, w')
    /\ is_Some (langchain_memory_store w' !! session_id)
    /\ (forall sid, history w' sid = history w sid)
    /\ (forall sid, sid ≠ session_id ->
          langchain_memory_store w' !! sid = langchain_memory_store w !! sid)
    /\ (is_Some (langchain_memory_store w !! session_id) -> w' = w)
    /\ get_session_history session_id w' = (Returned tt, w').
Proof.
  unfold get_session_history.
  destruct (langchain_memory_store w !! session_id) as [h|] eqn:E.
  - exists w. rewrite E. repeat split; eauto.
  - exists (set_history session_id [] w).
    split; [reflexivity|]. split; [cbn; rewrite lookup_insert_eq; eauto|].
    split.
    { intros sid. destruct (decide (session_id = sid)) as [<-|Hne].
      - rewrite history_set_history. unfold history. by rewrite E.
      - by apply history_set_history_ne. }
    split; [intros sid Hne; cbn; by rewrite lookup_insert_ne|].
    split; [by intros [? ?]|].
    cbn. by rewrite lookup_insert_eq.
Qed.

(** ** [LLMService] *)

Lemma at_import_consistent key :
  is_Some (LLMService.usable_key key) ->
  service_consistent (LLMService.at_import key).
Proof.
  intros Hk. split; [exact Hk|].
  split; [intros [] llm; cbn; discriminate|].
  split; [intros c m; cbn; discriminate|reflexivity].
Qed.

Lemma call_consistent g s :
  service_consistent s ->
  exists llm s',
    LLMService.call g s = (Some llm, s')
    /\ service_consistent s'
    /\ instance_of g s' = Some llm
    /\ (forall g' x, instance_of g' s = Some x -> instance_of g' s' = Some x).
Proof.
  intros Hs. pose proof Hs as ([key Hkey] & Hinst & Hne & Hn).
  pose proof (Hinst LLMService.GetChat) as Hc.
  pose proof (Hinst LLMService.GetModeration) as Hm.
  unfold built_by in Hn. cbn [instance_of] in Hc, Hm, Hne, Hn.
  destruct g; cbn [LLMService.call];
    unfold LLMService.get_chat_llm, LLMService.get_moderation_llm.
  - destruct (LLMService._chat_llm_instance s) as [c|] eqn:Ec.
    + exists c, s. split; [reflexivity|]. split; [exact Hs|].
      split; [exact Ec|done].
    + rewrite Hkey. eexists _, _. split; [reflexivity|].
      split; [|split; [reflexivity|]].
      * split; [cbn; by rewrite Hkey|]. split; [|split].
        -- intros [] llm; cbn; [intros [= <-]; cbn; split; [lia|done]|].
           intros E. destruct (Hm llm E). split; [lia|done].
        -- cbn. intros c m [= <-] E. cbn. destruct (Hm m E). lia.
        -- unfold built_by. cbn. rewrite Hn. lia.
      * intros [] x; cbn; [by rewrite Ec|done].
  - destruct (LLMService._moderation_llm_instance s) as [m|] eqn:Em.
    + exists m, s. split; [reflexivity|]. split; [exact Hs|].
      split; [exact Em|done].
    + rewrite Hkey. eexists _, _. split; [reflexivity|].
      split; [|split; [reflexivity|]].
      * split; [cbn; by rewrite Hkey|]. split; [|split].
        -- intros [] llm; cbn; [|intros [= <-]; cbn; split; [lia|done]].
           intros E. destruct (Hc llm E). split; [lia|done].
        -- cbn. intros c m E [= <-]. cbn. destruct (Hc c E). lia.
        -- unfold built_by. cbn. rewrite Hn.
           destruct (LLMService._chat_llm_instance s); lia.
      * intros [] x; cbn; [done|by rewrite Em].
Qed.

Lemma calls_consistent gs : forall s,
  service_consistent s ->
  service_consistent (snd (LLMService.calls gs s))
  /\ (forall g x, instance_of g s = Some x ->
        instance_of g (snd (LLMService.calls gs s)) = Some x)
  /\ (forall g r, (g, r) ∈ fst (LLMService.calls gs s) ->
        is_Some r /\ r = instance_of g (snd (LLMService.calls gs s))).
Proof.
  induction gs as [|g gs IH]; intros s Hs.
  - cbn. split; [done|]. split; [done|]. intros g r H. by apply elem_of_nil in H.
  - destruct (call_consistent g s Hs) as (llm & s1 & Hcall & Hs1 & Hllm & Hkeep).
    destruct (IH s1 Hs1) as (Hfin & Hkeep1 & Hres).
    cbn [LLMService.calls]. rewrite Hcall.
    destruct (LLMService.calls gs s1) as [rs s2] eqn:E. cbn [fst snd] in *.
    split; [done|]. split; [intros g' x Hx; by apply Hkeep1, Hkeep|].
    intros g' r [[= -> ->]|Hin]%elem_of_cons.
    + split; [eauto|]. symmetry. by apply Hkeep1.
    + by apply Hres.
Qed.

(** X12. With the API key set, in any sequence of calls of
    [get_chat_llm] and [get_moderation_llm] from a fresh import: no call
    returns [None]; all calls of the same getter return the same object,
    the one the class keeps; the chat and the moderation object are
    different objects, built with the chat and the moderation temperature;
    and no more than two [ChatOpenAI] objects are ever built. *)
Theorem llm_service_keeps_singletons (key : option string)
    (gs : list LLMService.getter) :
  is_Some (LLMService.usable_key key) ->
  let results := fst (LLMService.calls gs (LLMService.at_import key)) in
  let final := snd (LLMService.calls gs (LLMService.at_import key)) in
  (forall g r, (g, r) ∈ results -> is_Some r /\ r = instance_of g final)
  /\ (forall g r1 r2, (g, r1) ∈ results -> (g, r2) ∈ results -> r1 = r2)
  /\ (forall c m,
        (LLMService.GetChat, Some c) ∈ results ->
        (LLMService.GetModeration, Some m) ∈ results ->
        LLMService.object_id c ≠ LLMService.object_id m
        /\ LLMService.temperature_of c = LLMService.LLM_TEMPERATURE_CHATBOT
        /\ LLMService.temperature_of m
           = LLMService.LLM_TEMPERATURE_MODERATION)
  /\ (LLMService.objects_built final <= 2)%nat.
Proof.
  intros Hkey results final.
  destruct (calls_consistent gs _ (at_import_consistent key Hkey))
    as ((_ & Hinst & Hne & Hn) & _ & Hres).
  fold results final in Hinst, Hne, Hn, Hres.
  split; [exact Hres|]. split; [|split].
  - intros g r1 r2 H1 H2.
    destruct (Hres g r1 H1) as [_ ->]. by destruct (Hres g r2 H2) as [_ ->].
  - intros c m Hc Hm.
    destruct (Hres _ _ Hc) as [_ Ec]. destruct (Hres _ _ Hm) as [_ Em].
    symmetry in Ec, Em. split; [by apply Hne|].
    split; [by destruct (Hinst _ _ Ec)|by destruct (Hinst _ _ Em)].
  - rewrite Hn. unfold built_by.
    destruct (instance_of _ final), (instance_of _ final); lia.
Qed.

(** X13. With the API key unset or empty, every call of either getter
    returns [None] and builds nothing: the class stays as it was at
    import, however many calls are made. *)
Theorem llm_service_without_key (key : option string)
    (gs : list LLMService.getter) :
  LLMService.usable_key key = None ->
  LLMService.calls gs (LLMService.at_import key)
  = ((fun g => (g, None)) <$> gs, LLMService.at_import key).
Proof.
  intros Hkey. induction gs as [|g gs IH]; [reflexivity|].
  cbn [LLMService.calls].
  assert (LLMService.call g (LLMService.at_import key)
          = (None, LLMService.at_import key)) as ->.
  { destruct g; cbn; unfold LLMService.get_chat_llm,
      LLMService.get_moderation_llm; cbn; by rewrite Hkey. }
  by rewrite IH.
Qed.

(** ** The log parser *)

Ltac split_line_cases :=
  unfold Dashboard.process_line, Dashboard.blocked_input;
  repeat match goal with
         | |- context [Dashboard.found ?p ?l] => destruct (Dashboard.found p l)
         | |- context [PyStr.contains ?p ?l] => destruct (PyStr.contains p l)
         end.

(** What one line adds does not depend on what was counted before. *)
Lemma process_line_count line d k :
  Dashboard.count (Dashboard.process_line line d) k
  = (Dashboard.count d k
     + Dashboard.count (Dashboard.process_line line Dashboard.empty_log_data) k)%nat.
Proof.
  split_line_cases; destruct k; cbn;
    repeat (case_decide; try done); lia.
Qed.

Lemma process_line_lines line d :
  Dashboard.all_log_lines (Dashboard.process_line line d)
  = Dashboard.all_log_lines d ++ [PyStr.strip line].
Proof. by split_line_cases. Qed.

(** What one line can add. *)
Lemma process_line_alone line :
  let d := Dashboard.process_line line Dashboard.empty_log_data in
  Dashboard.count d Dashboard.total_user_inputs
  = (Dashboard.count d Dashboard.user_input_accepted
     + Dashboard.count d Dashboard.user_input_blocked_overall)%nat
  /\ Dashboard.count d Dashboard.total_llm_generations
     = Dashboard.count d Dashboard.user_input_accepted
  /\ (Dashboard.count d Dashboard.user_input_blocked_hate_speech
      + Dashboard.count d Dashboard.user_input_blocked_pii
      + Dashboard.count d Dashboard.user_input_blocked_jailbreak
      + Dashboard.count d Dashboard.user_input_blocked_llm_general
      <= Dashboard.count d Dashboard.user_input_blocked_overall)%nat
  /\ (Dashboard.count d Dashboard.total_user_inputs <= 1)%nat
  /\ (Dashboard.count d Dashboard.llm_output_accepted
      + Dashboard.count d Dashboard.llm_output_blocked <= 1)%nat.
Proof.
  cbv zeta. split_line_cases; cbn;
    repeat (case_decide; try done); lia.
Qed.

Lemma process_lines_count lines : forall d k,
  Dashboard.count (Dashboard.process_lines lines d) k
  = (Dashboard.count d k
     + Dashboard.count (Dashboard.process_lines lines Dashboard.empty_log_data) k)%nat.
Proof.
  induction lines as [|line lines IH]; intros d k; cbn [Dashboard.process_lines].
  - cbn. lia.
  - rewrite IH, (IH (Dashboard.process_line line Dashboard.empty_log_data)).
    rewrite process_line_count. lia.
Qed.

Lemma process_lines_lines lines : forall d,
  Dashboard.all_log_lines (Dashboard.process_lines lines d)
  = Dashboard.all_log_lines d ++ (PyStr.strip <$> lines).
Proof.
  induction lines as [|line lines IH]; intros d; cbn [Dashboard.process_lines].
  - by rewrite app_nil_r.
  - rewrite IH, process_line_lines. by rewrite <- app_assoc.
Qed.

Lemma process_lines_consistent lines :
  let d := Dashboard.process_lines lines Dashboard.empty_log_data in
  Dashboard.count d Dashboard.total_user_inputs
  = (Dashboard.count d Dashboard.user_input_accepted
     + Dashboard.count d Dashboard.user_input_blocked_overall)%nat
  /\ Dashboard.count d Dashboard.total_llm_generations
     = Dashboard.count d Dashboard.user_input_accepted
  /\ (Dashboard.count d Dashboard.user_input_blocked_hate_speech
      + Dashboard.count d Dashboard.user_input_blocked_pii
      + Dashboard.count d Dashboard.user_input_blocked_jailbreak
      + Dashboard.count d Dashboard.user_input_blocked_llm_general
      <= Dashboard.count d Dashboard.user_input_blocked_overall)%nat
  /\ (Dashboard.count d Dashboard.total_user_inputs <= length lines)%nat
  /\ (Dashboard.count d Dashboard.llm_output_accepted
      + Dashboard.count d Dashboard.llm_output_blocked <= length lines)%nat.
Proof.
  cbv zeta. induction lines as [|line lines IH]; [cbn; lia|].
  cbn [Dashboard.process_lines length].
  pose proof (process_line_alone line) as H. cbv zeta in H.
  rewrite !(process_lines_count lines (Dashboard.process_line _ _)). lia.
Qed.

(** X14. Whatever the log file holds, the counters returned agree with one
    another: the inputs counted are the accepted plus the blocked ones, the
    generations counted are the accepted inputs, and the four kinds of block
    together never exceed the blocked inputs. *)
Theorem parse_moderation_log_counters_agree (f : Dashboard.log_file) :
  let d := fst (Dashboard.parse_moderation_log f) in
  Dashboard.count d Dashboard.total_user_inputs
  = (Dashboard.count d Dashboard.user_input_accepted
     + Dashboard.count d Dashboard.user_input_blocked_overall)%nat
  /\ Dashboard.count d Dashboard.total_llm_generations
     = Dashboard.count d Dashboard.user_input_accepted
  /\ (Dashboard.count d Dashboard.user_input_blocked_hate_speech
      + Dashboard.count d Dashboard.user_input_blocked_pii
      + Dashboard.count d Dashboard.user_input_blocked_jailbreak
      + Dashboard.count d Dashboard.user_input_blocked_llm_general
      <= Dashboard.count d Dashboard.user_input_blocked_overall)%nat.
Proof.
  destruct f as [|lines failed]; cbv zeta; cbn [Dashboard.parse_moderation_log fst].
  - cbn. lia.
  - pose proof (process_lines_consistent lines) as H. cbv zeta in H. tauto.
Qed.

(** X15. The parser keeps every line it has read, trimmed and in order; a
    line counts for one input at most and for one output at most, so no
    counter exceeds the number of lines read; and a missing file gives the
    empty result with the not-found notice. *)
Theorem parse_moderation_log_keeps_lines (lines : list string) (failed : bool) :
  let d := fst (Dashboard.parse_moderation_log (Dashboard.Readable lines failed)) in
  Dashboard.all_log_lines d = PyStr.strip <$> lines
  /\ (Dashboard.count d Dashboard.total_user_inputs <= length lines)%nat
  /\ (Dashboard.count d Dashboard.llm_output_accepted
      + Dashboard.count d Dashboard.llm_output_blocked <= length lines)%nat
  /\ Dashboard.parse_moderation_log Dashboard.Missing
     = (Dashboard.empty_log_data, Dashboard.FileNotFound).
Proof.
  cbv zeta. cbn [Dashboard.parse_moderation_log fst].
  pose proof (process_lines_consistent lines) as H. cbv zeta in H.
  split; [by rewrite process_lines_lines|]. split; [tauto|]. split; [tauto|done].
Qed.

(** X16. Parsing is additive: the counters of a log made of two parts are
    the sums of the counters of the parts, and its lines are the lines of
    the first part followed by those of the second. *)
Theorem parse_moderation_log_additive (lines1 lines2 : list string)
    (failed : bool) (k : Dashboard.counter) :
  let parse ls := fst (Dashboard.parse_moderation_log (Dashboard.Readable ls failed)) in
  Dashboard.count (parse (lines1 ++ lines2)) k
  = (Dashboard.count (parse lines1) k + Dashboard.count (parse lines2) k)%nat
  /\ Dashboard.all_log_lines (parse (lines1 ++ lines2))
     = Dashboard.all_log_lines (parse lines1)
       ++ Dashboard.all_log_lines (parse lines2).
Proof.
  cbv zeta. cbn [Dashboard.parse_moderation_log fst].
  assert (forall d, Dashboard.process_lines (lines1 ++ lines2) d
                    = Dashboard.process_lines lines2
                        (Dashboard.process_lines lines1 d)) as Happ.
  { induction lines1 as [|l ls IH]; intros d; [reflexivity|]. cbn. apply IH. }
  rewrite Happ. split; [apply process_lines_count|].
  by rewrite !process_lines_lines.
Qed.

(** The searches of the parser are substring tests: a pattern without
    special characters is found exactly where the text holds it. *)
Lemma match_here_literal k : forall prev s,
  Re.match_here (literal_pattern k) prev s = PyStr.startswith k s.
Proof.
  induction k as [|c k IH]; intros prev s; [by destruct s|].
  change (literal_pattern (String c k))
    with (Re.Rep (Config.is_char c) 1 (Some 1%nat) :: literal_pattern k).
  destruct s as [|b s]; [reflexivity|].
  cbn [Re.match_here PyStr.startswith]. cbn.
  unfold Config.is_char.
  assert ((fix rep (lo : nat) (hi : option nat) (prev0 : option ascii)
             (s0 : string) {struct s0} : bool :=
             match lo with
             | O => Re.match_here (literal_pattern k) prev0 s0
             | S _ => false
             end
             || negb (Re.exhausted hi) &&
                match s0 with
                | EmptyString => false
                | String c0 s' =>
                    bool_decide (c0 = c)
                    && rep (Nat.pred lo) (Nat.pred <$> hi) (Some c0) s'
                end) O (Some O) (Some b) s
          = Re.match_here (literal_pattern k) (Some b) s) as ->
    by (destruct s; cbn; by rewrite orb_false_r).
  rewrite IH. case_bool_decide; case_decide; try congruence; reflexivity.
Qed.

Lemma found_is_contains literal line :
  Dashboard.found literal line = PyStr.contains literal line.
Proof.
  unfold Dashboard.found, Re.search. generalize (@None ascii) as prev.
  induction line as [|c line IH]; intros prev;
    cbn [Re.search_from PyStr.contains]; rewrite match_here_literal;
    [reflexivity|]. by rewrite IH.
Qed.

(** ** The history on the page *)

Lemma show_from_separated ms : forall i n,
  n = (i + length ms)%nat ->
  App.show_from i n ms
  = separated (App.Markdown "---") (App.show_message <$> ms).
Proof.
  induction ms as [|m ms IH]; intros i n Hn; [reflexivity|].
  cbn [App.show_from fmap list_fmap separated].
  rewrite (IH (S i) n) by (cbn in Hn; lia).
  destruct ms as [|m' ms].
  - cbn in Hn. assert ((i <? n - 1)%nat = false) as ->
      by (apply Nat.ltb_ge; lia). reflexivity.
  - cbn in Hn. assert ((i <? n - 1)%nat = true) as ->
      by (apply Nat.ltb_lt; lia). reflexivity.
Qed.

Lemma show_history_separated (msgs : list message) :
  App.show_history msgs
  = match msgs with
    | [] => [App.Write App.NO_HISTORY]
    | _ => separated (App.Markdown "---") (App.show_message <$> rev msgs)
    end.
Proof.
  destruct msgs as [|m msgs]; [reflexivity|].
  unfold App.show_history. apply show_from_separated.
  by rewrite length_rev.
Qed.

(** X17. The page shows the messages newest first, each in its box, with
    a rule between each two boxes and none after the last; an empty history
    shows the invitation to start chatting instead. *)
Theorem show_history_newest_first (msgs : list message) :
  App.show_history msgs
  = match msgs with
    | [] => [App.Write App.NO_HISTORY]
    | _ => separated (App.Markdown "---") (App.show_message <$> rev msgs)
    end
  /\ (msgs ≠ [] ->
      length (App.show_history msgs) = (2 * length msgs - 1)%nat).
Proof.
  split; [apply show_history_separated|].
  intros Hne. rewrite show_history_separated.
  destruct msgs as [|m msgs]; [done|].
  rewrite <- (length_rev (m :: msgs)).
  generalize (rev (m :: msgs)) as ms. clear.
  induction ms as [|a ms IH]; [reflexivity|].
  cbn [fmap list_fmap separated] in *. destruct ms as [|b ms]; [reflexivity|].
  cbn [fmap list_fmap length] in *. rewrite IH. lia.
Qed.



(** ** The further properties at concrete inputs *)

(** X2 at "I HaTe Mondays". *)
Lemma keyword_in_any_case_matches_witness :
  moderate_input (moderation_answers "SAFE")
      ("I " +:+ "HaTe" +:+ " Mondays") fresh_world
  = (Returned (false, HATE_SPEECH_REASON),
     note [RuleCheck HateSpeech ("I " +:+ "HaTe" +:+ " Mondays")] fresh_world).
Proof.
  apply (keyword_in_any_case_matches (moderation_answers "SAFE") fresh_world
           "hate" "I " "HaTe" " Mondays" eq_refl).
  apply list_elem_of_here.
Defined.



(** X6 at the address of the test suite. *)
Lemma email_address_is_flagged_witness :
  _check_for_pii
    ("Please contact me at " +:+ "test.user" +:+ "@" +:+ "example" +:+ "."
       +:+ "com" +:+ ".") fresh_world
  = (Returned true, fresh_world).
Proof.
  apply (email_address_is_flagged fresh_world "Please contact me at "
           "test.user" "example" "com" "."); try reflexivity; cbn; lia.
Defined.

(** X9 with a chat chain that answers. *)
Lemma get_response_records_one_turn_witness :
  exists ret w',
    get_response (moderation_answers "SAFE") (chain_answers "It's sunny.")
        "What's the weather like?" "s1" fresh_world
      = (Returned ret, w')
    /\ one_turn_recorded (history fresh_world "s1") (history w' "s1")
         "What's the weather like?" ret.
Proof.
  apply (get_response_records_one_turn (moderation_answers "SAFE")
           (chain_answers "It's sunny.") "What's the weather like?" "s1"
           fresh_world).
  intros tr partial. discriminate.
Defined.

(** X12 at three calls with the key of the test suite. *)
Lemma llm_service_keeps_singletons_witness :
  (LLMService.objects_built
     (snd (LLMService.calls
             [LLMService.GetChat; LLMService.GetModeration; LLMService.GetChat]
             (LLMService.at_import (Some "sk-test-dummykey")))) <= 2)%nat.
Proof.
  destruct (llm_service_keeps_singletons (Some "sk-test-dummykey")
              [LLMService.GetChat; LLMService.GetModeration; LLMService.GetChat])
    as (_ & _ & _ & H); [by eexists|exact H].
Defined.

(** X13 with the key unset. *)
Lemma llm_service_without_key_witness :
  LLMService.calls [LLMService.GetChat; LLMService.GetModeration]
    (LLMService.at_import None)
  = ([(LLMService.GetChat, None); (LLMService.GetModeration, None)],
     LLMService.at_import None).
Proof.
  exact (llm_service_without_key None
           [LLMService.GetChat; LLMService.GetModeration] eq_refl).
Defined.
